(** * B2B inventory ordering platform: cart, checkout and buyer aggregation

    A shallow embedding of the decision logic of
    - [frontend/src/pages/SupermarketDashboard.js] (the supermarket's cart,
      its quantity controls and the checkout), and
    - the supplier's [getSupplierBuyers] controller (the aggregation of a
      supplier's orders per buyer),
    together with the properties the specification states about them.

    Conventions of the embedding.
    - A JavaScript number is [number]: NaN, the two infinities, or a finite
      value carried as an exact rational ([Qc]); the rounding of binary64
      arithmetic and the sign of zero are not modelled.  So [add], [mul] and
      [StringToNumber] give what the code computes whenever the exact result
      is a binary64 number, as it is on the integers up to
      [Number.MAX_SAFE_INTEGER], and not in general: 0.1 * 3 is rounded by
      the code and 1e308 + 1e308 overflows.  Every property below that
      depends on a computed sum, product or conversion is stated for such
      integers, or is one that no rounding can change (a comparison with
      zero, a NaN, a cap at 999).
    - A JavaScript value is [jsval]; a string is a [string] whose characters
      are code units below 256; an object carries the reference [===]
      compares and its own properties.  Arrays and functions do not occur
      in the fields this logic reads and are left out.
    - A React state variable is a field of [state]; a handler is a function
      from the state of the render it closes over to the state after all
      its setters ran.  Handlers run one after the other. *)

From stdpp Require Import base decidable option list numbers strings gmap fin_maps sorting.
From Stdlib Require Import Ascii String QArith Qcanon.
#[local] Close Scope Q_scope.
#[local] Close Scope Qc_scope.
#[local] Open Scope string_scope.

#[local] Set Warnings "-register-all".

(** ** JavaScript numbers *)

Module JS.

Inductive number : Type :=
| NaN
| PInf
| NInf
| Fin (q : Qc).

#[global] Instance number_eq_dec : EqDecision number.
Proof. solve_decision. Defined.

Definition of_Z (z : Z) : number := Fin (Q2Qc (inject_Z z)).

Definition isFinite (n : number) : bool :=
  match n with Fin _ => true | _ => false end.

Definition isNaN (n : number) : bool :=
  match n with NaN => true | _ => false end.

(** [a + b], without the rounding and the overflow of binary64: the code's
    sum whenever the exact sum is a binary64 number. *)
Definition add (a b : number) : number :=
  match a, b with
  | NaN, _ | _, NaN => NaN
  | PInf, NInf | NInf, PInf => NaN
  | PInf, _ | _, PInf => PInf
  | NInf, _ | _, NInf => NInf
  | Fin x, Fin y => Fin (x + y)
  end.

Definition neg (a : number) : number :=
  match a with
  | NaN => NaN
  | PInf => NInf
  | NInf => PInf
  | Fin x => Fin (- x)
  end.

(** [a - b] *)
Definition sub (a b : number) : number := add a (neg b).

(** The sign of a number that is not NaN: [Lt] negative, [Eq] zero, [Gt] positive. *)
Definition sign (a : number) : comparison :=
  match a with
  | NaN => Eq
  | PInf => Gt
  | NInf => Lt
  | Fin x => (x ?= 0)%Qc
  end.

(** [a * b], without the rounding and the overflow of binary64: the code's
    product whenever the exact product is a binary64 number. *)
Definition mul (a b : number) : number :=
  match a, b with
  | NaN, _ | _, NaN => NaN
  | Fin x, Fin y => Fin (x * y)
  | _, _ =>
      match sign a, sign b with
      | Eq, _ | _, Eq => NaN
      | Gt, Gt | Lt, Lt => PInf
      | Gt, Lt | Lt, Gt => NInf
      end
  end.

(** [a < b]; false as soon as one side is NaN. *)
Definition lt (a b : number) : bool :=
  match a, b with
  | NaN, _ | _, NaN => false
  | _, NInf => false
  | NInf, _ => true
  | PInf, _ => false
  | _, PInf => true
  | Fin x, Fin y => bool_decide (x < y)%Qc
  end.

(** [a > b] *)
Definition gt (a b : number) : bool := lt b a.

(** [a === b] on numbers: NaN differs from itself. *)
Definition eqb (a b : number) : bool :=
  match a, b with
  | NaN, _ | _, NaN => false
  | _, _ => bool_decide (a = b)
  end.

(** [Math.max(a, b)] *)
Definition max (a b : number) : number :=
  match a, b with
  | NaN, _ | _, NaN => NaN
  | _, _ => if lt a b then b else a
  end.

(** [Math.min(a, b)] *)
Definition min (a b : number) : number :=
  match a, b with
  | NaN, _ | _, NaN => NaN
  | _, _ => if lt b a then b else a
  end.

(** ** JavaScript strings *)

(** [WhiteSpace] and [LineTerminator] code units below 256: TAB, LF, VT, FF,
    CR, SP and NBSP. *)
Definition is_ws (a : ascii) : bool :=
  bool_decide (nat_of_ascii a ∈ [9; 10; 11; 12; 13; 32; 160]).

Fixpoint trimStart (s : string) : string :=
  match s with
  | String a s' => if is_ws a then trimStart s' else s
  | EmptyString => EmptyString
  end.

Fixpoint trimEnd (s : string) : string :=
  match s with
  | String a s' =>
      let t := trimEnd s' in
      if is_ws a && bool_decide (t = EmptyString) then EmptyString else String a t
  | EmptyString => EmptyString
  end.

(** [s.trim()] *)
Definition trim (s : string) : string := trimEnd (trimStart s).

(** The value of a digit in a base up to 16, if it is one. *)
Definition digit_val (base : N) (a : ascii) : option N :=
  let c := N_of_ascii a in
  let v :=
    if bool_decide (48 ≤ c ≤ 57)%N then Some (c - 48)%N
    else if bool_decide (97 ≤ c ≤ 102)%N then Some (c - 87)%N
    else if bool_decide (65 ≤ c ≤ 70)%N then Some (c - 55)%N
    else None in
  match v with
  | Some d => if bool_decide (d < base)%N then Some d else None
  | None => None
  end.

(** Reads the longest prefix of digits: their value, how many, and the rest. *)
Fixpoint digits (base : N) (s : string) (acc : N) (len : nat) : N * nat * string :=
  match s with
  | String a s' =>
      match digit_val base a with
      | Some d => digits base s' (acc * base + d)%N (S len)
      | None => (acc, len, s)
      end
  | EmptyString => (acc, len, s)
  end.

(** [NonDecimalIntegerLiteral]: 0x, 0o, 0b and their digits, nothing else. *)
Definition nonDecimalLiteral (s : string) : option number :=
  match s with
  | String "0" (String p r) =>
      let base : option N :=
        if bool_decide (p = "x" ∨ p = "X")%char then Some 16%N
        else if bool_decide (p = "o" ∨ p = "O")%char then Some 8%N
        else if bool_decide (p = "b" ∨ p = "B")%char then Some 2%N
        else None in
      match base with
      | Some b =>
          match digits b r 0 0 with
          | (v, S _, EmptyString) => Some (of_Z (Z.of_N v))
          | _ => None
          end
      | None => None
      end
  | _ => None
  end.

(** [ExponentPart], or nothing, up to the end of the string. *)
Definition exponentPart (s : string) : option Z :=
  match s with
  | EmptyString => Some 0%Z
  | String e r =>
      if bool_decide (e = "e" ∨ e = "E")%char then
        let '(sg, r') :=
          match r with
          | String "-" r' => ((-1)%Z, r')
          | String "+" r' => (1%Z, r')
          | _ => (1%Z, r)
          end in
        match digits 10 r' 0 0 with
        | (v, S _, EmptyString) => Some (sg * Z.of_N v)%Z
        | _ => None
        end
      else None
  end.

(** [StrUnsignedDecimalLiteral]: the mathematical value of the literal, which
    [Number] rounds to binary64; the two agree when that value is a binary64
    number, as every integer up to [Number.MAX_SAFE_INTEGER] is. *)
Definition unsignedDecimalLiteral (s : string) : option number :=
  if bool_decide (s = "Infinity") then Some PInf
  else
    let '(i, ni, s2) := digits 10 s 0 0 in
    let '(f, nf, s3) :=
      match s2 with
      | String "." r => digits 10 r i 0
      | _ => (i, 0, s2)
      end in
    if bool_decide (ni + nf = 0) then None
    else
      match exponentPart s3 with
      | Some e =>
          Some (Fin (Q2Qc (inject_Z (Z.of_N f) * Qpower (inject_Z 10) (e - Z.of_nat nf))))
      | None => None
      end.

(** [StringToNumber]: what [Number(s)] is for a string. *)
Definition StringToNumber (s : string) : number :=
  let t := trim s in
  if bool_decide (t = EmptyString) then of_Z 0
  else
    match nonDecimalLiteral t with
    | Some n => n
    | None =>
        let r :=
          match t with
          | String "-" t' => neg <$> unsignedDecimalLiteral t'
          | String "+" t' => unsignedDecimalLiteral t'
          | _ => unsignedDecimalLiteral t
          end in
        default NaN r
    end.

(** ** JavaScript values *)

Inductive jsval : Type :=
| JUndefined
| JNull
| JBool (b : bool)
| JNum (n : number)
| JStr (s : string)
| JObj (ref : nat) (props : gmap string jsval).

(** [Boolean(v)] *)
Definition truthy (v : jsval) : bool :=
  match v with
  | JUndefined | JNull => false
  | JBool b => b
  | JNum n => negb (isNaN n) && negb (bool_decide (n = of_Z 0))
  | JStr s => negb (bool_decide (s = EmptyString))
  | JObj _ _ => true
  end.

(** [a || b] *)
Definition or (a b : jsval) : jsval := if truthy a then a else b.

(** [v?.k]: undefined on undefined and null; a primitive has none of the
    property names read here. *)
Definition opt_get (v : jsval) (k : string) : jsval :=
  match v with
  | JObj _ props => default JUndefined (props !! k)
  | _ => JUndefined
  end.

(** The outcome of evaluating code that may throw an [Error]. *)
Inductive completion (A : Type) : Type :=
| Normal (a : A)
| Throw (message : string).
Arguments Normal {A} a.
Arguments Throw {A} message.

#[global] Instance completion_ret : MRet completion := λ A a, Normal a.
#[global] Instance completion_bind : MBind completion := λ A B f m,
  match m with
  | Normal a => f a
  | Throw msg => Throw msg
  end.

(** [v.k]: a TypeError on undefined and null (with V8's message). *)
Definition get (v : jsval) (k : string) : completion jsval :=
  match v with
  | JUndefined => Throw ("Cannot read properties of undefined (reading '" ++ k ++ "')")
  | JNull => Throw ("Cannot read properties of null (reading '" ++ k ++ "')")
  | _ => Normal (opt_get v k)
  end.

(** [a || b] on strings. *)
Definition str_or (a b : string) : string :=
  if bool_decide (a = EmptyString) then b else a.

(** [a === b] *)
Definition strict_eq (a b : jsval) : bool :=
  match a, b with
  | JUndefined, JUndefined => true
  | JNull, JNull => true
  | JBool x, JBool y => bool_decide (x = y)
  | JNum x, JNum y => eqb x y
  | JStr x, JStr y => bool_decide (x = y)
  | JObj r _, JObj r' _ => bool_decide (r = r')
  | _, _ => false
  end.

(** [Number(v)] *)
Definition ToNumber (v : jsval) : number :=
  match v with
  | JUndefined => NaN
  | JNull => of_Z 0
  | JBool b => if b then of_Z 1 else of_Z 0
  | JNum n => n
  | JStr s => StringToNumber s
  | JObj _ _ => NaN
  end.

End JS.

Declare Scope js_scope.
Delimit Scope js_scope with js.
Notation "a || b" := (JS.or a b) : js_scope.
Notation "v ?. k" := (JS.opt_get v k) (at level 25, left associativity, format "v ?. k") : js_scope.


(** ** The supermarket dashboard: state and handlers *)

Module Dashboard.
Import JS.
#[local] Open Scope js_scope.

(** The messages [setErr] receives, under the names the specification gives
    to the failures. *)
Definition NoSupplierError : string :=
  "This product has no supplier info. Add supplier_id to product in DB.".
Definition MixedSupplierError : string :=
  "Cart can contain products from ONE supplier only. Clear cart to switch supplier.".
Definition EmptyCartError : string := "Cart is empty.".
Definition MissingSupplierError : string :=
  "Cannot place order: supplier not found for cart items.".
Definition MissingAddressError : string := "Please enter delivery address.".
(** The checkout button's own message for a cart without supplier. *)
Definition MissingSupplierError_confirm : string := "Supplier ID missing in cart items.".

(** The messages [setToast] receives, as the source file spells them. *)
Definition toast_added : string := "Added to cart ‚úÖ".
Definition toast_cleared : string := "Cart cleared üßπ".
Definition toast_placed : string := "Order placed successfully üéâ".

(** A cart entry [{ product, qty }]. *)
Record CartLine : Type := { product : jsval; qty : number }.

(** The state variables of the component that the cart and the checkout use. *)
Record state : Type := {
  tab : string;
  err : string;
  toast : string;
  loadingOrders : bool;
  orders : list jsval;
  cart : list CartLine;
  placing : bool;
  checkoutOpen : bool;
  deliveryAddress : string;
  deliveryDate : string;
  paymentMethod : string;
  orderNote : string;
}.

(** The [useState] initial values. *)
Definition init : state := {|
  tab := "products"; err := ""; toast := "";
  loadingOrders := true; orders := [];
  cart := []; placing := false;
  checkoutOpen := false; deliveryAddress := ""; deliveryDate := "";
  paymentMethod := "cash"; orderNote := "" |}.

Definition setTab (v : string) (st : state) : state :=
  {| tab := v; err := err st; toast := toast st; loadingOrders := loadingOrders st;
     orders := orders st; cart := cart st; placing := placing st;
     checkoutOpen := checkoutOpen st; deliveryAddress := deliveryAddress st;
     deliveryDate := deliveryDate st; paymentMethod := paymentMethod st;
     orderNote := orderNote st |}.

Definition setErr (v : string) (st : state) : state :=
  {| tab := tab st; err := v; toast := toast st; loadingOrders := loadingOrders st;
     orders := orders st; cart := cart st; placing := placing st;
     checkoutOpen := checkoutOpen st; deliveryAddress := deliveryAddress st;
     deliveryDate := deliveryDate st; paymentMethod := paymentMethod st;
     orderNote := orderNote st |}.

Definition setToast (v : string) (st : state) : state :=
  {| tab := tab st; err := err st; toast := v; loadingOrders := loadingOrders st;
     orders := orders st; cart := cart st; placing := placing st;
     checkoutOpen := checkoutOpen st; deliveryAddress := deliveryAddress st;
     deliveryDate := deliveryDate st; paymentMethod := paymentMethod st;
     orderNote := orderNote st |}.

Definition setLoadingOrders (v : bool) (st : state) : state :=
  {| tab := tab st; err := err st; toast := toast st; loadingOrders := v;
     orders := orders st; cart := cart st; placing := placing st;
     checkoutOpen := checkoutOpen st; deliveryAddress := deliveryAddress st;
     deliveryDate := deliveryDate st; paymentMethod := paymentMethod st;
     orderNote := orderNote st |}.

Definition setOrders (v : list jsval) (st : state) : state :=
  {| tab := tab st; err := err st; toast := toast st; loadingOrders := loadingOrders st;
     orders := v; cart := cart st; placing := placing st;
     checkoutOpen := checkoutOpen st; deliveryAddress := deliveryAddress st;
     deliveryDate := deliveryDate st; paymentMethod := paymentMethod st;
     orderNote := orderNote st |}.

(** [setCart(prev => f(prev))]; [setCart(v)] is [setCart (λ _, v)]. *)
Definition setCart (f : list CartLine → list CartLine) (st : state) : state :=
  {| tab := tab st; err := err st; toast := toast st; loadingOrders := loadingOrders st;
     orders := orders st; cart := f (cart st); placing := placing st;
     checkoutOpen := checkoutOpen st; deliveryAddress := deliveryAddress st;
     deliveryDate := deliveryDate st; paymentMethod := paymentMethod st;
     orderNote := orderNote st |}.

Definition setPlacing (v : bool) (st : state) : state :=
  {| tab := tab st; err := err st; toast := toast st; loadingOrders := loadingOrders st;
     orders := orders st; cart := cart st; placing := v;
     checkoutOpen := checkoutOpen st; deliveryAddress := deliveryAddress st;
     deliveryDate := deliveryDate st; paymentMethod := paymentMethod st;
     orderNote := orderNote st |}.

Definition setCheckoutOpen (v : bool) (st : state) : state :=
  {| tab := tab st; err := err st; toast := toast st; loadingOrders := loadingOrders st;
     orders := orders st; cart := cart st; placing := placing st;
     checkoutOpen := v; deliveryAddress := deliveryAddress st;
     deliveryDate := deliveryDate st; paymentMethod := paymentMethod st;
     orderNote := orderNote st |}.

Definition setDeliveryAddress (v : string) (st : state) : state :=
  {| tab := tab st; err := err st; toast := toast st; loadingOrders := loadingOrders st;
     orders := orders st; cart := cart st; placing := placing st;
     checkoutOpen := checkoutOpen st; deliveryAddress := v;
     deliveryDate := deliveryDate st; paymentMethod := paymentMethod st;
     orderNote := orderNote st |}.

Definition setDeliveryDate (v : string) (st : state) : state :=
  {| tab := tab st; err := err st; toast := toast st; loadingOrders := loadingOrders st;
     orders := orders st; cart := cart st; placing := placing st;
     checkoutOpen := checkoutOpen st; deliveryAddress := deliveryAddress st;
     deliveryDate := v; paymentMethod := paymentMethod st;
     orderNote := orderNote st |}.

Definition setPaymentMethod (v : string) (st : state) : state :=
  {| tab := tab st; err := err st; toast := toast st; loadingOrders := loadingOrders st;
     orders := orders st; cart := cart st; placing := placing st;
     checkoutOpen := checkoutOpen st; deliveryAddress := deliveryAddress st;
     deliveryDate := deliveryDate st; paymentMethod := v;
     orderNote := orderNote st |}.

Definition setOrderNote (v : string) (st : state) : state :=
  {| tab := tab st; err := err st; toast := toast st; loadingOrders := loadingOrders st;
     orders := orders st; cart := cart st; placing := placing st;
     checkoutOpen := checkoutOpen st; deliveryAddress := deliveryAddress st;
     deliveryDate := deliveryDate st; paymentMethod := paymentMethod st;
     orderNote := v |}.

(** Statements of a handler, run in order: [st |> f |> g] is [g (f st)]. *)
Notation "st |> f" := (f st) (at level 61, left associativity, only parsing).

(** *** UI helpers *)

Definition getProductSupplierId (p : jsval) : jsval :=
  p?."supplier_id" || p?."supplierId" || p?."supplier"?."_id" || p?."supplier" || JNull.

Definition cartSupplierId (cart : list CartLine) : jsval :=
  match cart with
  | [] => JNull
  | x :: _ => getProductSupplierId (product x)
  end.

(** The two reduces, left to right as the code runs them; their sums and
    products are those of [add] and [mul], exact where binary64 rounds. *)
Definition cartTotal (cart : list CartLine) : number :=
  foldl
    (λ sum x,
       add sum (mul (ToNumber (product x?."price" || JNum (of_Z 0)))
                    (ToNumber (JNum (qty x) || JNum (of_Z 0)))))
    (of_Z 0) cart.

Definition cartItemsCount (cart : list CartLine) : number :=
  foldl (λ n x, add n (ToNumber (JNum (qty x) || JNum (of_Z 0)))) (of_Z 0) cart.

(** *** Cart actions *)

Definition addToCart (p : jsval) (st : state) : state :=
  let st0 := st |> setErr "" in
  let supplierId := getProductSupplierId p in
  if negb (truthy supplierId) then
    st0 |> setErr NoSupplierError
  else if truthy (cartSupplierId (cart st))
          && negb (strict_eq supplierId (cartSupplierId (cart st))) then
    (* enforce single supplier per order *)
    st0 |> setErr MixedSupplierError
  else
    st0 |> setCart (λ prev,
             match list_find (λ x, strict_eq (product x?."_id") (p?."_id") = true) prev with
             | Some (idx, x) =>
                 <[idx := {| product := product x;
                             qty := min (of_Z 999) (add (qty x) (of_Z 1)) |}]> prev
             | None => (prev ++ [{| product := p; qty := of_Z 1 |}])%list
             end)
        |> setToast toast_added.

Definition updateQty (productId : jsval) (q : jsval) (st : state) : state :=
  let n := ToNumber q in
  if negb (isFinite n) then st
  else
    st |> setCart (λ prev,
            filter (λ x, gt (qty x) (of_Z 0) = true)
              ((λ x, if strict_eq (product x?."_id") productId
                     then {| product := product x; qty := max (of_Z 0) n |}
                     else x) <$> prev)).

Definition incQty (productId : jsval) (st : state) : state :=
  st |> setCart (λ prev,
          (λ x, if strict_eq (product x?."_id") productId
                then {| product := product x; qty := min (of_Z 999) (add (qty x) (of_Z 1)) |}
                else x) <$> prev).

Definition decQty (productId : jsval) (st : state) : state :=
  st |> setCart (λ prev,
          filter (λ x, gt (qty x) (of_Z 0) = true)
            ((λ x, if strict_eq (product x?."_id") productId
                   then {| product := product x; qty := max (of_Z 0) (sub (qty x) (of_Z 1)) |}
                   else x) <$> prev)).

Definition clearCart (st : state) : state :=
  st |> setCart (λ _, [])
     |> setCheckoutOpen false
     |> setDeliveryAddress ""
     |> setDeliveryDate ""
     |> setPaymentMethod "cash"
     |> setOrderNote ""
     |> setToast toast_cleared.

(** *** Checkout *)

(** The argument [extra] of [placeOrder]; a field it lacks is [JUndefined]. *)
Module Extra.
Record t : Type := {
  delivery_address : jsval;
  delivery_date : jsval;
  payment_method : jsval;
  note : jsval;
}.
(** The default [extra = {}]. *)
Definition empty : t :=
  {| delivery_address := JUndefined; delivery_date := JUndefined;
     payment_method := JUndefined; note := JUndefined |}.
End Extra.

(** The body of [POST /api/orders]. *)
Module Payload.
Record item : Type := { product_id : jsval; qty : number; price : jsval }.
Record t : Type := {
  supplier_id : jsval;
  items : list item;
  delivery_address : jsval;
  delivery_date : jsval;
  payment_method : jsval;
  note : jsval;
  total_amount : number;
}.
End Payload.

(** What [POST /api/orders] comes back with: [fetch] or [safeJson] throws, or
    there is a response with its [ok] flag and the text of [data.message]
    (empty when the body has none). *)
Inductive post_outcome : Type :=
| PostThrows (message : string)
| PostResponse (ok : bool) (message : string).

(** What [GET /api/orders] comes back with; [list] is
    [Array.isArray(data) ? data : data.orders || []]. *)
Inductive orders_outcome : Type :=
| OrdersThrows (message : string)
| OrdersResponse (ok : bool) (message : string) (list : list jsval).

Definition loadOrders (o : orders_outcome) (st : state) : state :=
  let st1 := st |> setErr "" |> setLoadingOrders true in
  let st2 :=
    match o with
    | OrdersThrows m => st1 |> setErr (str_or m "Orders load failed")
    | OrdersResponse false m _ =>
        st1 |> setErr (str_or (str_or m "Failed to load orders") "Orders load failed")
    | OrdersResponse true _ l => st1 |> setOrders l
    end in
  st2 |> setLoadingOrders false.

(** The object [payload] of [placeOrder]; reading [x.product._id] throws when a
    line has no product. *)
Definition payload (extra : Extra.t) (cart : list CartLine) : completion Payload.t :=
  items ← mapM (λ x,
             id ← get (product x) "_id";
             pr ← get (product x) "price";
             mret {| Payload.product_id := id; Payload.qty := qty x; Payload.price := pr |})
           cart;
  mret {| Payload.supplier_id := cartSupplierId cart;
          Payload.items := items;
          Payload.delivery_address := Extra.delivery_address extra || JStr "";
          Payload.delivery_date := Extra.delivery_date extra || JStr "";
          Payload.payment_method := Extra.payment_method extra || JStr "cash";
          Payload.note := Extra.note extra || JStr "";
          Payload.total_amount := cartTotal cart |}.

(** The request [placeOrder] sends, if it gets as far as [fetch]. *)
Definition placeOrder_request (extra : Extra.t) (st : state) : option Payload.t :=
  if bool_decide (List.length (cart st) = 0) then None
  else if negb (truthy (cartSupplierId (cart st))) then None
  else
    match payload extra (cart st) with
    | Normal p => Some p
    | Throw _ => None
    end.

(** The state after [placeOrder(extra)], given what the two requests it makes
    come back with. *)
Definition placeOrder (extra : Extra.t) (post : post_outcome) (load : orders_outcome)
    (st : state) : state :=
  let st0 := st |> setErr "" in
  if bool_decide (List.length (cart st) = 0) then
    st0 |> setErr EmptyCartError |> setTab "products"
  else
    let supplierId := cartSupplierId (cart st) in
    if negb (truthy supplierId) then
      st0 |> setErr MissingSupplierError
    else
      (* try *)
      let st1 := st0 |> setPlacing true in
      let body : completion unit :=
        _ ← payload extra (cart st);
        match post with
        | PostThrows m => Throw m
        | PostResponse false m => Throw (str_or m "Order failed")
        | PostResponse true _ => Normal ()
        end in
      let st2 :=
        match body with
        | Normal _ =>
            st1 |> setToast toast_placed
                |> clearCart
                |> setTab "orders"
                |> loadOrders load
        (* catch (e) *)
        | Throw m => st1 |> setErr (str_or m "Place order failed")
        end in
      (* finally *)
      st2 |> setPlacing false.

(** The checkout details the "Confirm Order" button passes on. *)
Definition checkoutDetails (st : state) : Extra.t :=
  {| Extra.delivery_address := JStr (deliveryAddress st);
     Extra.delivery_date := JStr (deliveryDate st);
     Extra.payment_method := JStr (paymentMethod st);
     Extra.note := JStr (orderNote st) |}.

(** The [onClick] of the "Confirm Order" button. *)
Definition confirmOrder (post : post_outcome) (load : orders_outcome) (st : state) : state :=
  let st0 := st |> setErr "" in
  if negb (truthy (JStr (trim (deliveryAddress st)))) then
    st0 |> setErr MissingAddressError
  else if negb (truthy (cartSupplierId (cart st))) then
    st0 |> setErr MissingSupplierError_confirm
  else
    st0 |> placeOrder (checkoutDetails st) post load.

(** The request a click on "Confirm Order" sends, if any. *)
Definition confirmOrder_request (st : state) : option Payload.t :=
  if negb (truthy (JStr (trim (deliveryAddress st)))) then None
  else if negb (truthy (cartSupplierId (cart st))) then None
  else placeOrder_request (checkoutDetails st) st.

(** *** The user's actions *)

(** The options of the payment method [select]. *)
Inductive payment_option : Type := cash | bank | card.

Definition option_value (o : payment_option) : string :=
  match o with
  | cash => "cash"
  | bank => "bank"
  | card => "card"
  end.

(** What the user can do to the cart and the checkout form, one handler each. *)
Inductive action : Type :=
| AddToCart (p : jsval)
| UpdateQty (productId : jsval) (q : jsval)
| IncQty (productId : jsval)
| DecQty (productId : jsval)
| ClearCart
| SetTab (v : string)
| OpenCheckout
| CloseCheckout
| ChangeDeliveryAddress (v : string)
| ChangeDeliveryDate (v : string)
| ChangePaymentMethod (o : payment_option)
| ChangeOrderNote (v : string)
| ConfirmOrder (post : post_outcome) (load : orders_outcome)
| RefreshOrders (load : orders_outcome)
| ToastTimeout.

Definition step (st : state) (a : action) : state :=
  match a with
  | AddToCart p => addToCart p st
  | UpdateQty productId q => updateQty productId q st
  | IncQty productId => incQty productId st
  | DecQty productId => decQty productId st
  | ClearCart => clearCart st
  | SetTab v => setTab v st
  | OpenCheckout => setCheckoutOpen true st
  | CloseCheckout => setCheckoutOpen false st
  | ChangeDeliveryAddress v => setDeliveryAddress v st
  | ChangeDeliveryDate v => setDeliveryDate v st
  | ChangePaymentMethod o => setPaymentMethod (option_value o) st
  | ChangeOrderNote v => setOrderNote v st
  | ConfirmOrder post load => confirmOrder post load st
  | RefreshOrders load => loadOrders load st
  | ToastTimeout => setToast "" st
  end.

(** The state after a sequence of actions, from the initial render. *)
Definition run (l : list action) : state := foldl step init l.

Definition reachable (st : state) : Prop := ∃ l, run l = st.

End Dashboard.

(** ** The supplier's buyers: [getSupplierBuyers]

    The [Order] and [Supermarket] models are not among the sources; their
    fields are typed as the controller uses them and as the data model of
    the specification has them: an order refers to its supplier and to its
    buyer, holds its total as an exact amount and its creation time in
    milliseconds; a supermarket's name, contact email and address are
    values that may be missing. *)

Module SupermarketController.
Import JS.
#[local] Open Scope js_scope.

(** A MongoDB [ObjectId], as its hexadecimal string. *)
Abbreviation ObjectId := string (only parsing).
Definition toString (o : ObjectId) : string := o.

Module Order.
Record t : Type := {
  supplier : ObjectId;
  supermarket : ObjectId;
  totalAmount : Qc;
  createdAt : Z;
}.
End Order.

Module Supermarket.
Record t : Type := {
  _id : ObjectId;
  name : jsval;
  contactEmail : jsval;
  address : jsval;
}.
End Supermarket.

(** A document the [$group] stage puts out. *)
Module Row.
Record t : Type := {
  _id : ObjectId;
  totalOrders : nat;
  totalRevenue : Qc;
  lastOrderDate : Z;
}.
End Row.

(** An element of the response. *)
Module Buyer.
Record t : Type := {
  supermarketId : ObjectId;
  name : jsval;
  contactEmail : jsval;
  address : jsval;
  totalOrders : nat;
  totalRevenue : Qc;
  lastOrderDate : Z;
}.
End Buyer.

(** [{ $match: { supplier: supplierId } }] *)
Definition match_stage (supplierId : ObjectId) (docs : list Order.t) : list Order.t :=
  filter (λ o, Order.supplier o = supplierId) docs.

(** One document entering the accumulators of
    [{ $group: { _id: "$supermarket", totalOrders: { $sum: 1 },
                 totalRevenue: { $sum: "$totalAmount" },
                 lastOrderDate: { $max: "$createdAt" } } }]. *)
Definition accumulate (groups : gmap string Row.t) (o : Order.t) : gmap string Row.t :=
  let key := Order.supermarket o in
  <[key :=
      match groups !! key with
      | None =>
          {| Row._id := key;
             Row.totalOrders := 1;
             Row.totalRevenue := Order.totalAmount o;
             Row.lastOrderDate := Order.createdAt o |}
      | Some r =>
          {| Row._id := Row._id r;
             Row.totalOrders := Row.totalOrders r + 1;
             Row.totalRevenue := (Row.totalRevenue r + Order.totalAmount o)%Qc;
             Row.lastOrderDate := Z.max (Row.lastOrderDate r) (Order.createdAt o) |}
      end]> groups.

(** The [$group] stage: one document per distinct [supermarket], in an order
    MongoDB leaves open (here the order of the map's listing). *)
Definition group_stage (docs : list Order.t) : list Row.t :=
  (map_to_list (foldl accumulate ∅ docs)).*2.

(** The order of [{ $sort: { totalRevenue: -1 } }]: larger revenue first. *)
Definition revenue_desc (a b : Row.t) : Prop := (Row.totalRevenue b ≤ Row.totalRevenue a)%Qc.

#[global] Instance revenue_desc_dec : RelDecision revenue_desc.
Proof. intros a b. unfold revenue_desc. apply _. Defined.

Definition sort_stage (rows : list Row.t) : list Row.t := merge_sort revenue_desc rows.

(** [Order.aggregate([...])] over the orders collection. *)
Definition aggregate (supplierId : ObjectId) (orders : list Order.t) : list Row.t :=
  sort_stage (group_stage (match_stage supplierId orders)).

(** [Supermarket.find({ _id: { $in: ids } })] over the supermarkets collection. *)
Definition find_in (ids : list string) (supermarkets : list Supermarket.t) : list Supermarket.t :=
  filter (λ m, Supermarket._id m ∈ ids) supermarkets.

(** [new Map(entries)]: a later entry replaces an earlier one with its key. *)
Definition new_Map (entries : list (string * Supermarket.t)) : gmap string Supermarket.t :=
  foldl (λ m e, <[e.1 := e.2]> m) ∅ entries.

(** [sm?.f] for the looked-up supermarket. *)
Definition field (f : Supermarket.t → jsval) (sm : option Supermarket.t) : jsval :=
  from_option f JUndefined sm.

(** The body of [rows.map((r) => ...)]. *)
Definition summary (map : gmap string Supermarket.t) (r : Row.t) : Buyer.t :=
  let sm := map !! toString (Row._id r) in
  {| Buyer.supermarketId := Row._id r;
     Buyer.name := field Supermarket.name sm || JStr "Unknown";
     Buyer.contactEmail := field Supermarket.contactEmail sm || JStr "";
     Buyer.address := field Supermarket.address sm || JStr "";
     Buyer.totalOrders := Row.totalOrders r;
     Buyer.totalRevenue := Row.totalRevenue r;
     Buyer.lastOrderDate := Row.lastOrderDate r |}.

(** The JSON body [getSupplierBuyers] answers with, for the authenticated
    supplier [supplierId] and the two collections. *)
Definition getSupplierBuyers (supplierId : ObjectId) (orders : list Order.t)
    (supermarkets : list Supermarket.t) : list Buyer.t :=
  let rows := aggregate supplierId orders in
  let supermarketIds := Row._id <$> rows in
  let markets := find_in supermarketIds supermarkets in
  let map := new_Map ((λ m, (toString (Supermarket._id m), m)) <$> markets) in
  summary map <$> rows.

End SupermarketController.

(** ** The rest of the dashboard: session, profile and catalog *)

(** Three more methods of JavaScript's strings, on code units below 256. *)
Module JSString.
Import JS.

(** [s.startsWith(p)] *)
Fixpoint startsWith (s p : string) : bool :=
  match p, s with
  | EmptyString, _ => true
  | String a p', String b s' => bool_decide (a = b) && startsWith s' p'
  | String _ _, EmptyString => false
  end.

(** [s.includes(t)] *)
Fixpoint includes (s t : string) : bool :=
  startsWith s t
  || match s with
     | String _ s' => includes s' t
     | EmptyString => false
     end.

(** The lower case of a code unit: A-Z, and the capital letters of Latin-1
    (all of 192-222 but the multiplication sign). *)
Definition lower (a : ascii) : ascii :=
  let c := nat_of_ascii a in
  if bool_decide ((65 ≤ c ≤ 90)%nat ∨ ((192 ≤ c ≤ 222)%nat ∧ c ≠ 215)) then ascii_of_nat (c + 32) else a.

(** [s.toLowerCase()] *)
Fixpoint toLowerCase (s : string) : string :=
  match s with
  | String a s' => String (lower a) (toLowerCase s')
  | EmptyString => EmptyString
  end.

End JSString.

Module Page.
Import JS JSString Dashboard.
#[local] Open Scope js_scope.

(** *** The session token *)

(** [localStorage.getItem(k)] *)
Definition getItem (localStorage : gmap string string) (k : string) : jsval :=
  match localStorage !! k with
  | Some v => JStr v
  | None => JNull
  end.

Definition token (localStorage : gmap string string) : jsval :=
  getItem localStorage "token"
  || getItem localStorage "authToken"
  || getItem localStorage "accessToken"
  || JStr "".

(** The object [authHeaders]; the token is a string, whatever the storage. *)
Definition authHeaders (localStorage : gmap string string) : gmap string string :=
  let spread : gmap string string :=
    if truthy (token localStorage) then
      match token localStorage with
      | JStr t => {["Authorization" := "Bearer " ++ t]}
      | _ => ∅
      end
    else ∅ in
  spread ∪ {["Content-Type" := "application/json"]}.

(** *** Reading a response body *)

Section safeJson.

(** [JSON.parse], and the reference of the object a call builds. *)
Variable JSON_parse : string → completion jsval.
Variable fresh : nat.

Definition safeJson (text : string) : jsval :=
  if negb (truthy (JStr text)) then JObj fresh ∅
  else if (startsWith (trim text) "<!DOCTYPE" || startsWith (trim text) "<html")%bool then
    JObj fresh {["message" := JStr text]}
  else
    match JSON_parse text with
    | Normal v => v
    | Throw _ => JObj fresh {["message" := JStr text]}
    end.

End safeJson.

(** *** The profile *)

(** What a [fetch] of a profile endpoint comes back with: [fetch] or
    [res.text()] throws, or there is a response with its [ok] flag and body. *)
Inductive fetch_outcome : Type :=
| FetchThrows
| FetchResponse (ok : bool) (text : string).

Definition ProfileUnavailableError : string :=
  "Cannot load profile (no working /me endpoint).".

Definition candidates (API_BASE : string) : list string :=
  [API_BASE ++ "/api/supermarket/me"; API_BASE ++ "/api/auth/me"].

(** The [for] loop of [fetchMeProfile] over the candidates left. *)
Fixpoint try_candidates (JSON_parse : string → completion jsval) (fresh : nat)
    (fetch : string → fetch_outcome) (urls : list string) : completion jsval :=
  match urls with
  | url :: rest =>
      match fetch url with
      | FetchResponse ok text =>
          let data := safeJson JSON_parse fresh text in
          if ok && truthy data then Normal data
          else try_candidates JSON_parse (S fresh) fetch rest
      | FetchThrows => try_candidates JSON_parse (S fresh) fetch rest
      end
  | [] => Throw ProfileUnavailableError
  end.

Definition fetchMeProfile (JSON_parse : string → completion jsval) (fresh : nat)
    (API_BASE : string) (fetch : string → fetch_outcome) : completion jsval :=
  try_candidates JSON_parse fresh fetch (candidates API_BASE).

(** The state variables of the component beside those of the cart and the
    checkout, which [base] holds. *)
Record view : Type := {
  base : state;
  q : string;
  products : list jsval;
  loadingProducts : bool;
  loadingMe : bool;
  me : jsval;
}.

Definition init_view : view := {|
  base := init; q := ""; products := [];
  loadingProducts := true; loadingMe := true; me := JNull |}.

(** A setter of the cart's and the checkout's variables, on the whole. *)
Definition on_base (f : state → state) (v : view) : view :=
  {| base := f (base v); q := q v; products := products v;
     loadingProducts := loadingProducts v; loadingMe := loadingMe v; me := me v |}.

Definition setLoadingMe (b : bool) (v : view) : view :=
  {| base := base v; q := q v; products := products v;
     loadingProducts := loadingProducts v; loadingMe := b; me := me v |}.

Definition setMe (profile : jsval) (v : view) : view :=
  {| base := base v; q := q v; products := products v;
     loadingProducts := loadingProducts v; loadingMe := loadingMe v; me := profile |}.

Definition loadMe (JSON_parse : string → completion jsval) (fresh : nat)
    (API_BASE : string) (fetch : string → fetch_outcome) (v : view) : view :=
  let v1 := v |> on_base (setErr "") |> setLoadingMe true in
  let v2 :=
    match fetchMeProfile JSON_parse fresh API_BASE fetch with
    | Normal profile => v1 |> setMe profile
    | Throw m => v1 |> on_base (setErr (str_or m "Profile load failed"))
    end in
  v2 |> setLoadingMe false.

(** *** The catalog filter *)

(** The TypeError of calling [toLowerCase] on what is no string (V8's text). *)
Definition not_a_function (field : string) : string :=
  let quote := String (ascii_of_nat 34) EmptyString in
  "(p." ++ field ++ " || " ++ quote ++ quote ++ ").toLowerCase is not a function".

(** [(p.field || "").toLowerCase()] *)
Definition lowered_field (p : jsval) (field : string) : completion string :=
  v ← get p field;
  match v || JStr "" with
  | JStr s => Normal (toLowerCase s)
  | _ => Throw (not_a_function field)
  end.

(** The callback of [products.filter] for the query text [s]. *)
Definition matches_query (s : string) (p : jsval) : completion bool :=
  name ← lowered_field p "name";
  desc ← lowered_field p "description";
  category ← lowered_field p "category";
  mret (includes name s || includes desc s || includes category s)%bool.

(** [l.filter(f)] for a callback that may throw. *)
Fixpoint filter_c {A} (f : A → completion bool) (l : list A) : completion (list A) :=
  match l with
  | x :: l' =>
      b ← f x;
      r ← filter_c f l';
      mret (if b : bool then x :: r else r)
  | [] => Normal []
  end.

Definition filteredProducts (q : string) (products : list jsval) : completion (list jsval) :=
  let s := toLowerCase (trim q) in
  if negb (truthy (JStr s)) then Normal products
  else filter_c (matches_query s) products.

End Page.

(** ** The quantity field of a cart line *)

Module CartTable.
Import JS Dashboard.

(** The [onChange] of the quantity input of a line:
    [(e) => updateQty(x.product._id, Number(e.target.value))]. *)
Definition onQtyChange (productId : jsval) (value : string) (st : state) : state :=
  updateQty productId (JNum (ToNumber (JStr value))) st.

End CartTable.

(** ** The vocabulary of the specification *)

Module CartSpec.
Import JS Dashboard.
#[local] Open Scope js_scope.

(** The owning-supplier identifier a cart line resolves to. *)
Definition supplier_of (x : CartLine) : jsval := getProductSupplierId (product x).

(** [x] is a line for the item identifier [id]. *)
Definition line_for (id : jsval) (x : CartLine) : Prop :=
  strict_eq (product x?."_id") id = true.

#[global] Instance line_for_dec id x : Decision (line_for id x).
Proof. unfold line_for. apply _. Defined.

(** The cart invariant: every line resolves to a supplier identifier, and any
    two lines to the same one. *)
Definition same_supplier (c : list CartLine) : Prop :=
  ∀ x y, x ∈ c → y ∈ c →
    truthy (supplier_of x) = true ∧ strict_eq (supplier_of x) (supplier_of y) = true.

(** Every line holds a quantity above zero. *)
Definition positive_quantities (c : list CartLine) : Prop :=
  Forall (λ x, gt (qty x) (of_Z 0) = true) c.

(** The three updates a quantity control applies to a line. *)
Definition bumped (x : CartLine) : CartLine :=
  {| product := product x; qty := min (of_Z 999) (add (qty x) (of_Z 1)) |}.
Definition lowered (x : CartLine) : CartLine :=
  {| product := product x; qty := max (of_Z 0) (sub (qty x) (of_Z 1)) |}.
Definition with_qty (n : number) (x : CartLine) : CartLine :=
  {| product := product x; qty := max (of_Z 0) n |}.

(** [prev.map((x) => (x.product?._id === id ? f(x) : x))] *)
Definition on_lines_for (id : jsval) (f : CartLine → CartLine) (c : list CartLine) :=
  (λ x, if strict_eq (product x?."_id") id then f x else x) <$> c.

(** [.filter((x) => x.qty > 0)] *)
Definition kept (c : list CartLine) : list CartLine :=
  filter (λ x, gt (qty x) (of_Z 0) = true) c.

(** The cart [addToCart] leaves when it accepts the product. *)
Definition added (p : jsval) (prev : list CartLine) : list CartLine :=
  match list_find (line_for (p?."_id")) prev with
  | Some (idx, x) => <[idx := bumped x]> prev
  | None => (prev ++ [{| product := p; qty := of_Z 1 |}])%list
  end.

(** The two checks of [addToCart]. *)
Definition accepted (p : jsval) (c : list CartLine) : bool :=
  truthy (getProductSupplierId p)
  && negb (truthy (cartSupplierId c)
           && negb (strict_eq (getProductSupplierId p) (cartSupplierId c))).



(** What a line adds to the total. *)
Definition line_total (x : CartLine) : number :=
  mul (ToNumber (product x?."price" || JNum (of_Z 0)))
      (ToNumber (JNum (qty x) || JNum (of_Z 0))).


(** [Number.MAX_SAFE_INTEGER]: every integer up to it, in absolute value, is a
    binary64 number, and sums and products that stay within it are exact. *)
Definition MAX_SAFE_INTEGER : Z := 9007199254740991.
Definition safe (z : Z) : Prop := (Z.abs z ≤ MAX_SAFE_INTEGER)%Z.

(** The two factors of line [x] in the total are the integers [pq.1], its
    price, and [pq.2], its quantity. *)
Definition whole_line (x : CartLine) (pq : Z * Z) : Prop :=
  ToNumber (product x?."price" || JNum (of_Z 0)) = of_Z pq.1
  ∧ ToNumber (JNum (qty x) || JNum (of_Z 0)) = of_Z pq.2
  ∧ safe pq.1 ∧ safe pq.2.

(** The sum of price times quantity, and the sum of the absolute values. *)
Definition exact_total (pqs : list (Z * Z)) : Z :=
  foldr (λ pq s, pq.1 * pq.2 + s)%Z 0%Z pqs.
Definition magnitude (pqs : list (Z * Z)) : Z :=
  foldr (λ pq s, Z.abs (pq.1 * pq.2) + s)%Z 0%Z pqs.

(** A string that is empty or holds white space only. *)
Definition blank (s : string) : Prop :=
  Forall (λ a, is_ws a = true) (list_ascii_of_string s).

(** The order-creation request came back rejected: it threw, or the response
    was not [ok]. *)
Definition rejected (post : post_outcome) : Prop :=
  match post with
  | PostResponse true _ => False
  | _ => True
  end.

(** The payment methods an order may carry. *)
Definition payment_methods : list jsval := [JStr "cash"; JStr "card"; JStr "bank"].

End CartSpec.

(** ** The vocabulary of the aggregation *)

Module BuyersSpec.
Import JS SupermarketController.


(** The sum of [totalAmount] over a list of orders. *)
Definition sum_amounts (g : list Order.t) : Qc :=
  foldr (λ o acc, (Order.totalAmount o + acc)%Qc) (Q2Qc 0) g.

(** [t] is the largest [createdAt] among [g]. *)
Definition latest (t : Z) (g : list Order.t) : Prop :=
  (∃ o, o ∈ g ∧ Order.createdAt o = t) ∧ ∀ o, o ∈ g → (Order.createdAt o ≤ t)%Z.

(** What a group's document says about the orders [g] of its buyer [b]. *)
Definition summarises (r : Row.t) (b : string) (g : list Order.t) : Prop :=
  Row._id r = b
  ∧ Row.totalOrders r = List.length g
  ∧ Row.totalRevenue r = sum_amounts g
  ∧ latest (Row.lastOrderDate r) g.


(** An order of supplier SUP1 (and one of another supplier), as in the
    specification's example. *)
Definition order (supplier buyer : string) (total created : Z) : Order.t :=
  {| Order.supplier := supplier; Order.supermarket := buyer;
     Order.totalAmount := Q2Qc (inject_Z total); Order.createdAt := created |}.

Definition sample_orders : list Order.t :=
  [order "SUP1" "SM1" 100 5; order "SUP1" "SM1" 50 7; order "SUP1" "SM2" 75 1;
   order "SUP2" "SM2" 7 9].

(** The directory knows SM1 only. *)
Definition sample_supermarkets : list Supermarket.t :=
  [{| Supermarket._id := "SM1"; Supermarket.name := JStr "Fresh Mart";
      Supermarket.contactEmail := JStr "orders@freshmart.example";
      Supermarket.address := JStr "1 High Street" |}].

End BuyersSpec.

(** ** Sample data *)

Module Sample.
Import JS Dashboard.

(** [{ _id, price, supplier_id }] as [JSON.parse] builds it. *)
Definition item (ref : nat) (id : string) (price : jsval) (supplier : string) : jsval :=
  JObj ref (<["_id" := JStr id]> (<["price" := price]> (<["supplier_id" := JStr supplier]> ∅))).

(** The items of the specification's example: A of supplier S1 at 10.00 and
    B of supplier S2 at 5.00. *)
Definition itemA : jsval := item 1 "A" (JNum (of_Z 10)) "S1".
Definition itemB : jsval := item 2 "B" (JNum (of_Z 5)) "S2".
(** A second item of supplier S1. *)
Definition itemC : jsval := item 3 "C" (JNum (Fin (Q2Qc 2.5))) "S1".


(** A catalog entry with a name and a category. *)
Definition milk : jsval :=
  JObj 7 (<["_id" := JStr "M"]> (<["name" := JStr "Fresh Milk 1L"]>
         (<["category" := JStr "Dairy"]> (<["supplier_id" := JStr "S1"]> ∅)))).

(** Item A as the catalog has it after its price went up to 12.00. *)
Definition itemA_repriced : jsval := item 8 "A" (JNum (of_Z 12)) "S1".

(** A cart holding A once. *)
Definition cartA : state := run [AddToCart itemA].

(** The checkout form filled in and the cart emptied behind it, and the form
    over A with an address of three spaces. *)
Definition checkout_empty : state :=
  run [AddToCart itemA; OpenCheckout; ChangeDeliveryAddress "12 Main St"; DecQty (JStr "A")].
Definition checkout_blank : state := run [AddToCart itemA; OpenCheckout; ChangeDeliveryAddress "   "].
(** The checkout form filled in over A, paying by card. *)
Definition checkout_card : state :=
  run [AddToCart itemA; OpenCheckout; ChangeDeliveryAddress "12 Main St";
       ChangePaymentMethod card].


(** The quantity field of A's line after the user typed 998.5 into it. *)
Definition cartA_fraction : state :=
  run [AddToCart itemA; UpdateQty (JStr "A") (JNum (Fin (Q2Qc 998.5)))].

(** The same field after the user typed 1000. *)
Definition cartA_1000 : state :=
  run [AddToCart itemA; UpdateQty (JStr "A") (JNum (of_Z 1000))].

(** A at the cap, next to C. *)
Definition cartA_999 : state :=
  run [AddToCart itemA; AddToCart itemC; UpdateQty (JStr "A") (JNum (of_Z 999))].

End Sample.

(** ** More vocabulary: what the handlers keep *)

Module MoreSpec.
Import JS JSString Dashboard CartSpec Page.
#[local] Open Scope js_scope.

(** The item identifier of a line. *)
Definition line_id (x : CartLine) : jsval := product x?."_id".

(** No two lines of the cart are for the same item identifier. *)
Definition distinct_lines (c : list CartLine) : Prop :=
  ∀ i j x y, c !! i = Some x → c !! j = Some y → i ≠ j →
    strict_eq (line_id x) (line_id y) = false.

(** Two lines for different items. *)
Definition apart (x y : CartLine) : Prop := strict_eq (line_id x) (line_id y) = false.

(** The quantity of a line is a finite number. *)
Definition finite_qty (x : CartLine) : Prop := isFinite (qty x) = true.

(** Every quantity is a finite number above zero. *)
Definition finite_quantities (c : list CartLine) : Prop :=
  Forall (λ x, ∃ r, qty x = Fin r ∧ (0 < r)%Qc) c.

(** The number of units in a cart of whole quantities. *)
Definition units (qs : list Z) : Z := foldr Z.add 0%Z qs.

(** Every quantity is an integer from 1 to 999. *)
Definition bounded_quantities (c : list CartLine) : Prop :=
  Forall (λ x, ∃ n : Z, qty x = of_Z n ∧ (1 ≤ n ≤ 999)%Z) c.

(** The quantity field is left alone, or receives what is no finite number,
    or an integer of at most 999. *)
Definition typed_within (a : action) : Prop :=
  match a with
  | UpdateQty _ q =>
      isFinite (ToNumber q) = false ∨ ∃ n : Z, ToNumber q = of_Z n ∧ (n ≤ 999)%Z
  | _ => True
  end.

(** What the order-creation request says of a line. *)
Definition request_item (x : CartLine) : Payload.item :=
  {| Payload.product_id := product x?."_id";
     Payload.qty := qty x;
     Payload.price := product x?."price" |}.

(** The order the screen shows: the cart's supplier, its lines one for one,
    the checkout form as it is filled in, and the cart's total. *)
Definition request_of (st : state) : Payload.t :=
  {| Payload.supplier_id := cartSupplierId (cart st);
     Payload.items := request_item <$> cart st;
     Payload.delivery_address := JStr (deliveryAddress st);
     Payload.delivery_date := JStr (deliveryDate st);
     Payload.payment_method := JStr (paymentMethod st);
     Payload.note := JStr (orderNote st);
     Payload.total_amount := cartTotal (cart st) |}.

(** The message shown for a rejected order: the one the request came back
    with, or a fixed one when it brought none. *)
Definition rejection_message (post : post_outcome) : string :=
  match post with
  | PostThrows m => if bool_decide (m = "") then "Place order failed" else m
  | PostResponse _ m => if bool_decide (m = "") then "Order failed" else m
  end.

(** The message shown for a failed load of the orders. *)
Definition load_failure_message (o : orders_outcome) : string :=
  match o with
  | OrdersThrows m => if bool_decide (m = "") then "Orders load failed" else m
  | OrdersResponse _ m _ => if bool_decide (m = "") then "Failed to load orders" else m
  end.

(** The load of the orders failed: it threw, or the response was not [ok]. *)
Definition load_failed (o : orders_outcome) : Prop :=
  match o with
  | OrdersResponse true _ _ => False
  | _ => True
  end.

(** The string the storage holds under [k], when it is not empty. *)
Definition stored (localStorage : gmap string string) (k : string) : option string :=
  match localStorage !! k with
  | Some t => if bool_decide (t = "") then None else Some t
  | None => None
  end.

(** The session token: the first of the three keys that holds one. *)
Definition session_token (localStorage : gmap string string) : option string :=
  stored localStorage "token" ∪ stored localStorage "authToken"
  ∪ stored localStorage "accessToken".

(** A body that starts, white space apart, as an HTML page. *)
Definition html_page (text : string) : Prop :=
  startsWith (trim text) "<!DOCTYPE" = true ∨ startsWith (trim text) "<html" = true.

(** The profile an answer of a profile endpoint carries: the answer is ok and
    its body reads as a truthy value. *)
Definition profile_of (JSON_parse : string → completion jsval) (fresh : nat)
    (o : fetch_outcome) : option jsval :=
  match o with
  | FetchResponse true text =>
      if truthy (safeJson JSON_parse fresh text) then Some (safeJson JSON_parse fresh text)
      else None
  | _ => None
  end.

(** What one unit of a product adds to the total. *)
Definition unit_price (v : jsval) : number := ToNumber (v?."price" || JNum (of_Z 0)).

(** The character of a decimal digit, and the numeral of a list of digits. *)
Definition digit_char (d : N) : ascii := ascii_of_N (48 + d).
Fixpoint numeral (ds : list N) : string :=
  match ds with
  | d :: ds' => String (digit_char d) (numeral ds')
  | [] => EmptyString
  end.

(** The number a list of decimal digits stands for. *)
Definition numeral_value (ds : list N) : N := foldl (λ a d, a * 10 + d)%N 0%N ds.

(** [t] occurs in [s]. *)
Definition occurs_in (t s : string) : Prop := ∃ a b, s = a ++ t ++ b.

(** A field of a product that the filter can read: a string, or falsy. *)
Definition text_or_falsy (v : jsval) : Prop :=
  truthy v = false ∨ ∃ t, v = JStr t.

(** A catalog entry the filter can read: an object or a primitive other than
    null and undefined, with readable name, description and category. *)
Definition readable_product (p : jsval) : Prop :=
  p ≠ JUndefined ∧ p ≠ JNull
  ∧ text_or_falsy (p?."name") ∧ text_or_falsy (p?."description")
  ∧ text_or_falsy (p?."category").

(** The text of a field as the filter compares it. *)
Definition field_text (v : jsval) : string :=
  match v with
  | JStr t => toLowerCase t
  | _ => EmptyString
  end.

(** The query [s] occurs in the name, the description or the category of [p],
    whatever the case of the letters there. *)
Definition query_occurs (s : string) (p : jsval) : Prop :=
  occurs_in s (field_text (p?."name"))
  ∨ occurs_in s (field_text (p?."description"))
  ∨ occurs_in s (field_text (p?."category")).

End MoreSpec.

(** ** More vocabulary: the totals of the buyers' list *)

Module BuyersMoreSpec.
Import JS SupermarketController BuyersSpec.

(** The orders and the revenue the rows of the aggregation account for. *)
Definition rows_orders (rows : list Row.t) : nat :=
  foldr (λ r n, Row.totalOrders r + n) 0 rows.
Definition rows_revenue (rows : list Row.t) : Qc :=
  foldr (λ r a, (Row.totalRevenue r + a)%Qc) (Q2Qc 0) rows.

(** The orders and the revenue the response accounts for. *)
Definition response_orders (l : list Buyer.t) : nat :=
  foldr (λ b n, Buyer.totalOrders b + n) 0 l.
Definition response_revenue (l : list Buyer.t) : Qc :=
  foldr (λ b a, (Buyer.totalRevenue b + a)%Qc) (Q2Qc 0) l.

(** Order [o] has the whole amount [z]. *)
Definition whole_amount (o : Order.t) (z : Z) : Prop :=
  Order.totalAmount o = Q2Qc (inject_Z z) ∧ (Z.abs z ≤ 9007199254740991)%Z.

(** The sum of whole amounts, and the sum of their absolute values. *)
Definition amounts_sum (zs : list Z) : Z := foldr Z.add 0%Z zs.
Definition amounts_magnitude (zs : list Z) : Z := foldr (λ z s, Z.abs z + s)%Z 0%Z zs.

(** The orders placed with supplier [s]. *)
Definition orders_with (s : string) (orders : list Order.t) : list Order.t :=
  filter (λ o, Order.supplier o = s) orders.

End BuyersMoreSpec.

(** * Properties *)

(** ** Facts about the JavaScript layer *)

Module JSFacts.
Import JS.

Example number_of_strings :
  JS.StringToNumber "  12.50 " = JS.Fin (Q2Qc 12.5) ∧
  JS.StringToNumber "" = JS.of_Z 0 ∧
  JS.StringToNumber "1e3" = JS.of_Z 1000 ∧
  JS.StringToNumber "-.5" = JS.Fin (Q2Qc (-0.5)) ∧
  JS.StringToNumber "0x1F" = JS.of_Z 31 ∧
  JS.StringToNumber "-Infinity" = JS.NInf ∧
  JS.StringToNumber "5." = JS.of_Z 5 ∧
  JS.StringToNumber "." = JS.NaN ∧
  JS.StringToNumber "12abc" = JS.NaN ∧
  JS.StringToNumber "abc" = JS.NaN.
Proof. repeat split; vm_compute; try reflexivity; f_equal; by apply Qc_is_canon. Qed.

Lemma of_Z_Qc z : of_Z z = Fin (Qc_of_Z z).
Proof. unfold of_Z. f_equal. apply Qc_is_canon. simpl. apply Qred_correct. Qed.

Lemma of_Z_add a b : add (of_Z a) (of_Z b) = of_Z (a + b).
Proof. rewrite !of_Z_Qc. simpl. by rewrite Z2Qc_inj_add. Qed.

Lemma of_Z_sub a b : sub (of_Z a) (of_Z b) = of_Z (a - b).
Proof. rewrite !of_Z_Qc. unfold sub. simpl. by rewrite Z2Qc_inj_sub. Qed.

Lemma of_Z_lt a b : lt (of_Z a) (of_Z b) = bool_decide (a < b)%Z.
Proof. rewrite !of_Z_Qc. simpl. apply bool_decide_ext. symmetry. apply Z2Qc_inj_lt. Qed.

Lemma of_Z_mul a b : mul (of_Z a) (of_Z b) = of_Z (a * b).
Proof. rewrite !of_Z_Qc. simpl. by rewrite Z2Qc_inj_mul. Qed.

Lemma of_Z_inj a b : of_Z a = of_Z b → a = b.
Proof. rewrite !of_Z_Qc. intros H. apply Z2Qc_inj. congruence. Qed.

Lemma add_comm a b : add a b = add b a.
Proof. destruct a, b; simpl; try done. by rewrite Qcplus_comm. Qed.

Lemma add_assoc a b c : add a (add b c) = add (add a b) c.
Proof. destruct a, b, c; simpl; try done. by rewrite Qcplus_assoc. Qed.

Lemma add_0_l a : add (of_Z 0) a = a.
Proof.
  rewrite of_Z_Qc. destruct a; simpl; try done. by rewrite Z2Qc_inj_0, Qcplus_0_l.
Qed.

Lemma add_0_r a : add a (of_Z 0) = a.
Proof. by rewrite add_comm, add_0_l. Qed.

Lemma add_NaN_l a : add NaN a = NaN.
Proof. done. Qed.


Lemma mul_NaN_l a : mul NaN a = NaN.
Proof. done. Qed.

Lemma lt_irrefl a : lt a a = false.
Proof.
  destruct a; simpl; try done.
  apply bool_decide_eq_false. apply (irreflexivity (<)%Qc).
Qed.

(** [Math.max(0, n)] of a finite [n]. *)
Lemma max_0_Fin q :
  max (of_Z 0) (Fin q) = if bool_decide (0 < q)%Qc then Fin q else of_Z 0.
Proof. done. Qed.

Lemma gt_0_Fin q : gt (Fin q) (of_Z 0) = bool_decide (0 < q)%Qc.
Proof. done. Qed.

(** [===] is symmetric and transitive, and reflexive on all values but NaN. *)
Lemma eqb_true a b : eqb a b = true ↔ a = b ∧ a ≠ NaN.
Proof.
  destruct a, b; simpl; rewrite ?bool_decide_eq_true; intuition congruence.
Qed.

Lemma strict_eq_sym a b : strict_eq a b = strict_eq b a.
Proof.
  destruct a, b; simpl; try done; try (apply bool_decide_ext; intuition congruence).
  apply eq_true_iff_eq. rewrite !eqb_true. intuition congruence.
Qed.

Lemma strict_eq_trans a b c :
  strict_eq a b = true → strict_eq b c = true → strict_eq a c = true.
Proof.
  destruct a, b, c; simpl; try done;
    rewrite ?eqb_true, ?bool_decide_eq_true; intuition congruence.
Qed.

Lemma strict_eq_refl a : truthy a = true → strict_eq a a = true.
Proof.
  destruct a as [| | |n| |]; simpl; try done; rewrite ?bool_decide_eq_true; try done.
  destruct n; simpl; try done. intros _. by apply bool_decide_eq_true.
Qed.

Lemma or_truthy a b : truthy a = true → or a b = a.
Proof. unfold or. by intros ->. Qed.

Lemma or_falsy a b : truthy a = false → or a b = b.
Proof. unfold or. by intros ->. Qed.

Lemma trimStart_ws s : Forall (λ a, is_ws a = true) (list_ascii_of_string s) → trimStart s = EmptyString.
Proof.
  induction s as [|a s IH]; simpl; [done|].
  intros [Ha Hs]%Forall_cons. rewrite Ha. by apply IH.
Qed.

Lemma min_of_Z a b : min (of_Z a) (of_Z b) = of_Z (Z.min a b).
Proof.
  change (min (of_Z a) (of_Z b)) with (if lt (of_Z b) (of_Z a) then of_Z b else of_Z a).
  rewrite of_Z_lt. case_bool_decide; f_equal; lia.
Qed.

Lemma max_of_Z a b : max (of_Z a) (of_Z b) = of_Z (Z.max a b).
Proof.
  change (max (of_Z a) (of_Z b)) with (if lt (of_Z a) (of_Z b) then of_Z b else of_Z a).
  rewrite of_Z_lt. case_bool_decide; f_equal; lia.
Qed.

Lemma gt_of_Z a b : gt (of_Z a) (of_Z b) = bool_decide (b < a)%Z.
Proof. unfold gt. apply of_Z_lt. Qed.

End JSFacts.

(** ** The cart *)

Module CartFacts.
Import JS JSFacts Dashboard CartSpec Sample.
#[local] Open Scope js_scope.

(** Induction over the states the component can be in. *)
Lemma reachable_ind (P : state → Prop) :
  P init → (∀ st a, reachable st → P st → P (step st a)) → ∀ st, reachable st → P st.
Proof.
  intros Hinit Hstep st [l <-].
  induction l as [|a l IH] using rev_ind; [done|].
  unfold run. rewrite foldl_snoc. apply Hstep; [by exists l | done].
Qed.

Lemma reachable_step st a : reachable st → reachable (step st a).
Proof. intros [l <-]. exists (l ++ [a])%list. unfold run. by rewrite foldl_snoc. Qed.

(** What each handler leaves of the cart. *)
Lemma loadOrders_cart o st : cart (loadOrders o st) = cart st.
Proof. by destruct o as [|[] ? ?]. Qed.

Lemma placeOrder_cart extra post load st :
  cart (placeOrder extra post load st) = cart st ∨ cart (placeOrder extra post load st) = [].
Proof.
  unfold placeOrder. case_bool_decide; [by left|].
  destruct (negb _); [by left|].
  destruct (payload extra (cart st)); simpl; [|by left].
  destruct post as [|[]]; simpl; [by left| |by left].
  right. by destruct load as [|[] ? ?].
Qed.

Lemma confirmOrder_cart post load st :
  cart (confirmOrder post load st) = cart st ∨ cart (confirmOrder post load st) = [].
Proof.
  unfold confirmOrder. repeat (destruct (negb _); [by left|]).
  apply (placeOrder_cart _ _ _ (setErr "" st)).
Qed.

Lemma incQty_cart id st : cart (incQty id st) = on_lines_for id bumped (cart st).
Proof. done. Qed.

Lemma decQty_cart id st : cart (decQty id st) = kept (on_lines_for id lowered (cart st)).
Proof. done. Qed.

Lemma updateQty_cart id q st :
  cart (updateQty id q st) =
    if isFinite (ToNumber q) then kept (on_lines_for id (with_qty (ToNumber q)) (cart st))
    else cart st.
Proof. unfold updateQty. by destruct (isFinite _). Qed.

Lemma addToCart_cart p st :
  cart (addToCart p st) = if accepted p (cart st) then added p (cart st) else cart st.
Proof.
  unfold addToCart, accepted.
  destruct (truthy (getProductSupplierId p)); simpl; [|done].
  by destruct (truthy (cartSupplierId (cart st)) && _).
Qed.

Lemma kept_positive c : positive_quantities (kept c).
Proof.
  apply Forall_forall. intros x Hx. unfold kept in Hx.
  by apply list_elem_of_filter in Hx as [? _].
Qed.

Lemma kept_id c : positive_quantities c → kept c = c.
Proof.
  induction 1 as [|x c Hx _ IH]; [done|].
  unfold kept in *. rewrite filter_cons_True by done. by rewrite IH.
Qed.

Lemma bumped_positive x :
  gt (qty x) (of_Z 0) = true → gt (qty (bumped x)) (of_Z 0) = true.
Proof.
  destruct x as [p q]. unfold bumped. cbn [qty].
  destruct q as [| | |q]; try done.
  rewrite gt_0_Fin, bool_decide_eq_true. intros Hq.
  assert (0 < q + Q2Qc (inject_Z 1))%Qc as Hq1 by by apply Qcplus_pos_nonneg.
  unfold min, add, of_Z, lt. case_bool_decide; [|done].
  by rewrite gt_0_Fin, bool_decide_eq_true.
Qed.

Lemma elem_of_insert_inv {A} (l : list A) i v x : x ∈ <[i:=v]> l → x = v ∨ x ∈ l.
Proof.
  intros [j Hj]%list_elem_of_lookup.
  apply list_lookup_insert_Some in Hj as [(-> & -> & _)|[_ Hj]]; [by left|].
  right. by eapply list_elem_of_lookup_2.
Qed.

Lemma added_positive p c : positive_quantities c → positive_quantities (added p c).
Proof.
  intros Hc. unfold added.
  destruct (list_find _ c) as [[idx x]|] eqn:Hfind.
  - apply list_find_Some in Hfind as (Hx & _ & _).
    apply Forall_forall. intros y [->|Hy]%elem_of_insert_inv.
    + apply bumped_positive.
      by apply (proj1 (Forall_forall _ _) Hc), (list_elem_of_lookup_2 _ idx).
    + by apply (proj1 (Forall_forall _ _) Hc).
  - apply Forall_app. split; [done|]. by repeat constructor.
Qed.

Lemma on_lines_for_bumped_positive id c :
  positive_quantities c → positive_quantities (on_lines_for id bumped c).
Proof.
  intros Hc. apply Forall_fmap. eapply Forall_impl; [exact Hc|].
  intros x Hx. simpl. destruct (strict_eq _ _); [by apply bumped_positive | done].
Qed.

(** Induction over the carts the component can hold: it is enough to follow
    the four ways the handlers rewrite the cart. *)
Lemma reachable_cart_ind (P : list CartLine → Prop) :
  P [] →
  (∀ p c, accepted p c = true → P c → P (added p c)) →
  (∀ id c, P c → P (on_lines_for id bumped c)) →
  (∀ id f c, (∀ x, product (f x) = product x) → P c → P (kept (on_lines_for id f c))) →
  ∀ st, reachable st → P (cart st).
Proof.
  intros Hnil Hadded Hbumped Hkept. apply reachable_ind; [done|].
  intros st a _ IH. destruct a; cbn [step]; try done.
  - rewrite addToCart_cart. destruct (accepted _ _) eqn:Hacc; [by apply Hadded | done].
  - rewrite updateQty_cart. destruct (isFinite _); [by apply Hkept | done].
  - rewrite incQty_cart. by apply Hbumped.
  - rewrite decQty_cart. by apply Hkept.
  - destruct (confirmOrder_cart post load st) as [-> | ->]; done.
  - by rewrite loadOrders_cart.
Qed.

(** Every line of a cart the component can hold has a quantity above zero. *)
Lemma reachable_positive st : reachable st → positive_quantities (cart st).
Proof.
  revert st. apply reachable_cart_ind.
  - constructor.
  - intros p c _. apply added_positive.
  - intros id c. apply on_lines_for_bumped_positive.
  - intros id f c _ _. apply kept_positive.
Qed.

(** *** One supplier per cart *)

Lemma cartSupplierId_cons x c : cartSupplierId (x :: c) = supplier_of x.
Proof. done. Qed.

Lemma same_supplier_nil : same_supplier [].
Proof. intros x y Hx. by apply elem_of_nil in Hx. Qed.

(** A cart whose lines all hold products of another cart inherits its invariant. *)
Lemma same_supplier_products c c' :
  (∀ x, x ∈ c' → ∃ y, y ∈ c ∧ product x = product y) →
  same_supplier c → same_supplier c'.
Proof.
  intros Hsub Hc x y Hx Hy.
  destruct (Hsub x Hx) as (x0 & Hx0 & Ex), (Hsub y Hy) as (y0 & Hy0 & Ey).
  unfold supplier_of. rewrite Ex, Ey. by apply Hc.
Qed.

(** An update of the lines for [id] that keeps their products. *)
Section on_lines.
Variable id : jsval.
Variable f : CartLine → CartLine.
Hypothesis f_product : ∀ x, product (f x) = product x.

Lemma on_lines_for_products c x :
  x ∈ on_lines_for id f c → ∃ y, y ∈ c ∧ product x = product y.
Proof using f_product.
  intros (y & -> & Hy)%list_elem_of_fmap. exists y. split; [done|].
  by destruct (strict_eq _ _).
Qed.

Lemma same_supplier_on_lines_for c :
  same_supplier c → same_supplier (on_lines_for id f c).
Proof using f_product.
  apply same_supplier_products. intros x Hx. by eapply on_lines_for_products.
Qed.

Lemma on_lines_for_twice g c :
  on_lines_for id g (on_lines_for id f c) = on_lines_for id (g ∘ f) c.
Proof using f_product.
  unfold on_lines_for. rewrite <- list_fmap_compose.
  apply list_fmap_ext. intros i x _. simpl.
  destruct (strict_eq (product x?."_id") id) eqn:E; [|by rewrite E].
  by rewrite f_product, E.
Qed.

End on_lines.

Lemma kept_products c x : x ∈ kept c → x ∈ c.
Proof. unfold kept. by intros [_ ?]%list_elem_of_filter. Qed.

Lemma same_supplier_kept c : same_supplier c → same_supplier (kept c).
Proof.
  apply same_supplier_products. intros x Hx%kept_products. by exists x.
Qed.

(** In a cart that satisfies the invariant the reference line speaks for all. *)
Lemma same_supplier_reference c x :
  same_supplier c → x ∈ c →
  truthy (cartSupplierId c) = true ∧ strict_eq (cartSupplierId c) (supplier_of x) = true.
Proof.
  intros Hc Hx. destruct c as [|x0 c]; [by apply elem_of_nil in Hx|].
  rewrite cartSupplierId_cons. apply Hc; [by left | done].
Qed.

Lemma same_supplier_added p c :
  accepted p c = true → same_supplier c → same_supplier (added p c).
Proof.
  intros Hacc Hc. unfold added.
  destruct (list_find _ c) as [[idx x]|] eqn:Hfind.
  - apply list_find_Some in Hfind as (Hx & _ & _).
    revert Hc. apply same_supplier_products.
    intros y [->|Hy]%elem_of_insert_inv.
    + exists x. split; [by eapply list_elem_of_lookup_2 | done].
    + by exists y.
  - apply andb_true_iff in Hacc as [Hp Hsame].
    assert (∀ y, y ∈ c → strict_eq (getProductSupplierId p) (supplier_of y) = true) as Hall.
    { intros y Hy. destruct (same_supplier_reference c y Hc Hy) as [Ht Hy'].
      rewrite Ht in Hsame. simpl in Hsame. apply negb_true_iff, negb_false_iff in Hsame.
      by eapply strict_eq_trans. }
    intros x y [Hx|Hx%list_elem_of_singleton]%elem_of_app
               [Hy|Hy%list_elem_of_singleton]%elem_of_app; subst.
    + by apply Hc.
    + split; [by apply (Hc x x)|]. rewrite strict_eq_sym. by apply Hall.
    + split; [done|]. by apply Hall.
    + split; [done|]. by apply strict_eq_refl.
Qed.

(** Every cart the component can hold satisfies the invariant. *)
Lemma reachable_same_supplier st : reachable st → same_supplier (cart st).
Proof.
  revert st. apply reachable_cart_ind.
  - apply same_supplier_nil.
  - apply same_supplier_added.
  - intros id c. by apply same_supplier_on_lines_for.
  - intros id f c Hf Hc. by apply same_supplier_kept, same_supplier_on_lines_for.
Qed.

(** Rejecting a product of another supplier. *)
Lemma addToCart_mixed st item :
  truthy (getProductSupplierId item) = true →
  truthy (cartSupplierId (cart st)) = true →
  strict_eq (getProductSupplierId item) (cartSupplierId (cart st)) = false →
  addToCart item st = setErr MixedSupplierError st.
Proof. intros H1 H2 H3. unfold addToCart. by rewrite H1, H2, H3. Qed.

(** C1. Single-supplier cart.  In every cart state that is not empty, adding
    an item whose supplier identifier resolves and differs ([!==]) from the
    one of the cart's reference line (its first line, when that resolves) is
    rejected: the error is the mixed-supplier message and nothing else of the
    state changes, the cart included.  Consequently, in every state the
    component can reach, every line resolves to a supplier identifier and any
    two lines resolve to the same one. *)
Theorem single_supplier_cart (st : state) (item : jsval) :
  (cart st ≠ [] →
   truthy (getProductSupplierId item) = true →
   truthy (cartSupplierId (cart st)) = true →
   strict_eq (getProductSupplierId item) (cartSupplierId (cart st)) = false →
   addToCart item st = setErr MixedSupplierError st
   ∧ err (addToCart item st) = MixedSupplierError
   ∧ cart (addToCart item st) = cart st)
  ∧ (reachable st →
     same_supplier (cart st)
     ∧ (cart st ≠ [] → truthy (cartSupplierId (cart st)) = true)).
Proof.
  split.
  - intros _ H1 H2 H3. by rewrite (addToCart_mixed st item H1 H2 H3).
  - intros Hst. pose proof (reachable_same_supplier st Hst) as Hc.
    split; [done|]. destruct (cart st) as [|x c] eqn:E; [done|]. intros _.
    by apply (same_supplier_reference (x :: c) x Hc); left.
Qed.

Lemma single_supplier_cart_witness :
  addToCart itemB cartA = setErr MixedSupplierError cartA
  ∧ cart (addToCart itemB cartA) = cart cartA
  ∧ same_supplier (cart cartA).
Proof.
  destruct (single_supplier_cart cartA itemB) as [Hreject Hinv].
  destruct Hreject as (H1 & _ & H2);
    [intros H; vm_compute in H; discriminate H | reflexivity | reflexivity | reflexivity |].
  destruct Hinv as [H3 _]; [exists [AddToCart itemA]; reflexivity|].
  split; [exact H1|]. split; [exact H2 | exact H3].
Defined.

(** The specification's example: adding A succeeds, adding B is refused, and
    the cart remains A once with total 10. *)
Example mixed_supplier_example :
  err (run [AddToCart itemA]) = ""
  ∧ err (run [AddToCart itemA; AddToCart itemB]) = MixedSupplierError
  ∧ cart (run [AddToCart itemA; AddToCart itemB]) = [{| product := itemA; qty := of_Z 1 |}]
  ∧ cartTotal (cart (run [AddToCart itemA; AddToCart itemB])) = of_Z 10
  ∧ cart (run [AddToCart itemA; ClearCart; AddToCart itemB])
    = [{| product := itemB; qty := of_Z 1 |}].
Proof. repeat split; reflexivity. Qed.

(** *** Adding an item *)

Lemma bumped_integer x n : qty x = of_Z n → qty (bumped x) = of_Z (Z.min 999 (n + 1)).
Proof. intros Hx. unfold bumped. cbn [qty]. by rewrite Hx, of_Z_add, min_of_Z. Qed.

Lemma addToCart_accepted p st :
  accepted p (cart st) = true →
  addToCart p st = setToast toast_added (setCart (added p) (setErr "" st)).
Proof.
  unfold accepted, addToCart. intros [Hp Hsame]%andb_true_iff.
  rewrite Hp. apply negb_true_iff in Hsame. by rewrite Hsame.
Qed.

(** C5. Adding an item.  An item whose supplier identifier does not resolve
    is refused with the no-supplier message, and nothing else of the state
    changes.  An item that passes both supplier checks clears the error and
    (a) when the cart has a line for the same item identifier, the first such
    line keeps its product and its quantity becomes [Math.min(999, qty + 1)]
    (for an integer quantity [n], the integer [min 999 (n + 1)]), every other
    line staying as it is; (b) otherwise the cart is the old one followed by
    a new line for the item with quantity 1. *)
Theorem add_behaviour (st : state) (item : jsval) :
  (truthy (getProductSupplierId item) = false →
     addToCart item st = setErr NoSupplierError st
     ∧ err (addToCart item st) = NoSupplierError
     ∧ cart (addToCart item st) = cart st)
  ∧ (accepted item (cart st) = true →
     err (addToCart item st) = ""
     ∧ (∀ idx x,
          cart st !! idx = Some x → line_for (item?."_id") x →
          (∀ j y, cart st !! j = Some y → j < idx → ¬ line_for (item?."_id") y) →
          cart (addToCart item st)
            = <[idx := {| product := product x;
                          qty := min (of_Z 999) (add (qty x) (of_Z 1)) |}]> (cart st)
          ∧ (∀ n, qty x = of_Z n →
               (qty <$> cart (addToCart item st) !! idx) = Some (of_Z (Z.min 999 (n + 1)))))
     ∧ ((∀ x, x ∈ cart st → ¬ line_for (item?."_id") x) →
          cart (addToCart item st) = (cart st ++ [{| product := item; qty := of_Z 1 |}])%list)).
Proof.
  split.
  - intros Hp. unfold addToCart. by rewrite Hp.
  - intros Hacc. rewrite (addToCart_accepted _ _ Hacc). cbn [err cart setToast setCart setErr].
    split; [done|]. unfold added. split.
    + intros idx x Hx Hfor Hfirst.
      assert (list_find (line_for (item?."_id")) (cart st) = Some (idx, x)) as ->
        by by apply list_find_Some.
      split; [done|]. intros n Hn.
      rewrite list_lookup_insert_eq by by eapply lookup_lt_Some.
      cbn. f_equal. by apply bumped_integer.
    + intros Hnone.
      assert (list_find (line_for (item?."_id")) (cart st) = None) as ->; [|done].
      apply list_find_None, Forall_forall. exact Hnone.
Qed.

Lemma add_behaviour_witness :
  cart (addToCart itemA cartA)
    = [{| product := itemA; qty := of_Z 2 |}]
  ∧ cart (addToCart itemC cartA)
    = [{| product := itemA; qty := of_Z 1 |}; {| product := itemC; qty := of_Z 1 |}]
  ∧ err (addToCart (JObj 9 ∅) cartA) = NoSupplierError.
Proof.
  split; [|split].
  - destruct (proj2 (add_behaviour cartA itemA)) as (_ & Hsame & _);
      [vm_compute; reflexivity|].
    destruct (Hsame 0 {| product := itemA; qty := of_Z 1 |}) as [-> _].
    + reflexivity.
    + vm_compute; reflexivity.
    + intros; lia.
    + reflexivity.
  - destruct (proj2 (add_behaviour cartA itemC)) as (_ & _ & Hnew);
      [vm_compute; reflexivity|].
    rewrite Hnew; [reflexivity|].
    intros x Hx. apply list_elem_of_singleton in Hx. subst x.
    vm_compute. discriminate.
  - destruct (proj1 (add_behaviour cartA (JObj 9 ∅))) as (_ & Herr & _);
      [vm_compute; reflexivity|].
    exact Herr.
Defined.

(** *** Quantity controls *)

Lemma setCart_id f st : f (cart st) = cart st → setCart f st = st.
Proof. destruct st. unfold setCart. simpl. by intros ->. Qed.

Lemma on_lines_for_id id f c :
  (∀ x, x ∈ c → line_for id x → f x = x) → on_lines_for id f c = c.
Proof.
  intros Hf. unfold on_lines_for.
  induction c as [|x c IH]; [done|]. cbn [fmap list_fmap]. f_equal.
  - destruct (strict_eq _ _) eqn:E; [|done]. apply Hf; [by left | done].
  - apply IH. intros y Hy. apply Hf. by right.
Qed.

Lemma on_lines_for_absent id f c :
  (∀ x, x ∈ c → ¬ line_for id x) → on_lines_for id f c = c.
Proof. intros Habs. apply on_lines_for_id. intros x Hx Hfor. by destruct (Habs x Hx). Qed.

Lemma bumped_at_999 x : qty x = of_Z 999 → bumped x = x.
Proof. destruct x as [p q]. simpl. intros ->. done. Qed.

(** C10. No-op on absent lines.  In every state the component can reach and
    for every item identifier without a line in the cart, [incQty],
    [decQty] and [updateQty] (whatever quantity it is given) leave the whole
    state as it is: no line is created, none is touched.  Likewise [incQty]
    leaves the state as it is when the lines for the identifier are at 999. *)
Theorem absent_line_noop (st : state) (id q : jsval) :
  reachable st →
  ((∀ x, x ∈ cart st → ¬ line_for id x) →
     incQty id st = st ∧ decQty id st = st ∧ updateQty id q st = st)
  ∧ ((∀ x, x ∈ cart st → line_for id x → qty x = of_Z 999) → incQty id st = st).
Proof.
  intros Hst. pose proof (reachable_positive st Hst) as Hpos. split.
  - intros Habs. split; [|split].
    + apply setCart_id. by apply (on_lines_for_absent id bumped).
    + apply setCart_id.
      change (kept (on_lines_for id lowered (cart st)) = cart st).
      rewrite on_lines_for_absent by done. by apply kept_id.
    + unfold updateQty. destruct (isFinite _); [|done]. cbn [negb].
      apply setCart_id.
      change (kept (on_lines_for id (with_qty (ToNumber q)) (cart st)) = cart st).
      rewrite on_lines_for_absent by done. by apply kept_id.
  - intros Hcap. apply setCart_id. apply (on_lines_for_id id bumped).
    intros x Hx Hfor. apply bumped_at_999. by apply Hcap.
Qed.

Lemma absent_line_noop_witness :
  incQty (JStr "B") cartA = cartA
  ∧ decQty (JStr "B") cartA = cartA
  ∧ updateQty (JStr "B") (JNum (of_Z 7)) cartA = cartA
  ∧ incQty (JStr "A") cartA_999 = cartA_999.
Proof.
  destruct (absent_line_noop cartA (JStr "B") (JNum (of_Z 7))) as [Habs _].
  { by exists [AddToCart itemA]. }
  destruct Habs as (H1 & H2 & H3).
  { intros x Hx. apply list_elem_of_singleton in Hx. subst x. vm_compute. discriminate. }
  destruct (absent_line_noop cartA_999 (JStr "A") JUndefined) as [_ Hcap].
  { by eexists. }
  split; [exact H1|]. split; [exact H2|]. split; [exact H3|].
  apply Hcap. intros x Hx Hfor.
  apply elem_of_cons in Hx as [->|Hx]; [reflexivity|].
  apply list_elem_of_singleton in Hx. subst x. vm_compute in Hfor. discriminate.
Defined.

(** What [updateQty] does with each kind of quantity.  In every state the
    component can reach: a quantity whose [Number] is not finite changes
    nothing; a finite quantity above zero is what every line for the
    identifier reads back afterwards, with no upper bound, all other lines
    staying as they are; a finite quantity of zero or less removes the lines
    for the identifier and nothing else. *)
Theorem updateQty_readback (st : state) (id q : jsval) :
  reachable st →
  (isFinite (ToNumber q) = false → updateQty id q st = st)
  ∧ (∀ r, ToNumber q = Fin r → (0 < r)%Qc →
       cart (updateQty id q st)
       = on_lines_for id (λ x, {| product := product x; qty := Fin r |}) (cart st))
  ∧ (∀ r, ToNumber q = Fin r → (r ≤ 0)%Qc →
       cart (updateQty id q st) = filter (λ x, ¬ line_for id x) (cart st)).
Proof.
  intros Hst. pose proof (reachable_positive st Hst) as Hpos.
  split; [|split].
  - intros Hq. unfold updateQty. by rewrite Hq.
  - intros r Hq Hr. rewrite updateQty_cart, Hq. cbn [isFinite].
    assert (on_lines_for id (with_qty (Fin r)) (cart st)
            = on_lines_for id (λ x, {| product := product x; qty := Fin r |}) (cart st)) as ->.
    { unfold on_lines_for. apply list_fmap_ext. intros i x _.
      destruct (strict_eq _ _); [|done]. unfold with_qty.
      by rewrite max_0_Fin, bool_decide_true. }
    apply kept_id, Forall_fmap. eapply Forall_impl; [exact Hpos|].
    intros x Hx. unfold compose. cbv beta in *.
    destruct (strict_eq (product x?."_id") id); [|done].
    cbn [qty]. by rewrite gt_0_Fin, bool_decide_true.
  - intros r Hq Hr. rewrite updateQty_cart, Hq. cbn [isFinite].
    induction Hpos as [|x c Hx _ IH]; [done|].
    unfold kept, on_lines_for in *. cbn [fmap list_fmap].
    destruct (strict_eq (product x?."_id") id) eqn:E.
    + rewrite filter_cons_False, (filter_cons_False (λ x, ¬ line_for id x)); [done| |].
      * unfold line_for. by intros [].
      * unfold with_qty. cbn [qty]. rewrite max_0_Fin, bool_decide_false; [done|].
        by apply Qcle_not_lt.
    + rewrite filter_cons_True, (filter_cons_True (λ x, ¬ line_for id x)); [by f_equal| |done].
      unfold line_for. by rewrite E.
Qed.

Lemma updateQty_readback_witness :
  updateQty (JStr "A") (JStr "five") cartA = cartA
  ∧ cart (updateQty (JStr "A") (JNum (of_Z 5)) cartA) = [{| product := itemA; qty := of_Z 5 |}]
  ∧ cart (updateQty (JStr "A") (JNum (of_Z 0)) cartA) = [].
Proof.
  assert (reachable cartA) as Hst by by eexists.
  destruct (updateQty_readback cartA (JStr "A") (JStr "five") Hst) as (Hnoop & _).
  destruct (updateQty_readback cartA (JStr "A") (JNum (of_Z 5)) Hst) as (_ & Hset & _).
  destruct (updateQty_readback cartA (JStr "A") (JNum (of_Z 0)) Hst) as (_ & _ & Hdel).
  split; [|split].
  - apply Hnoop. reflexivity.
  - rewrite (Hset (Q2Qc (inject_Z 5))); [reflexivity | reflexivity | by vm_compute].
  - rewrite (Hdel (Q2Qc (inject_Z 0))); [reflexivity | reflexivity | by vm_compute].
Defined.

(** The round trip on a line with an integer quantity. *)
Lemma lowered_bumped x n :
  qty x = of_Z n → (0 < n < 999)%Z → lowered (bumped x) = x.
Proof.
  destruct x as [p q]. simpl. intros -> Hn. unfold lowered, bumped. cbn [qty product].
  f_equal. rewrite of_Z_add, min_of_Z, of_Z_sub, max_of_Z. f_equal. lia.
Qed.

Lemma lowered_bumped_999 x :
  qty x = of_Z 999 → lowered (bumped x) = {| product := product x; qty := of_Z 998 |}.
Proof. destruct x as [p q]. simpl. intros ->. done. Qed.

(** C7 (as amended). Increment then decrement.  In every state the component
    can reach, and for every item identifier each of whose lines holds an
    integer quantity strictly below 999 (or that has no line), [incQty]
    followed by [decQty] gives back exactly the state before.  When the lines
    for the identifier are at 999 the round trip leaves them at 998. *)
Theorem inc_dec_roundtrip (st : state) (id : jsval) :
  reachable st →
  ((∀ x, x ∈ cart st → line_for id x → ∃ n : Z, qty x = of_Z n ∧ (n < 999)%Z) →
     decQty id (incQty id st) = st)
  ∧ ((∀ x, x ∈ cart st → line_for id x → qty x = of_Z 999) →
     cart (decQty id (incQty id st))
       = on_lines_for id (λ x, {| product := product x; qty := of_Z 998 |}) (cart st)).
Proof.
  intros Hst. pose proof (reachable_positive st Hst) as Hpos.
  assert (cart (decQty id (incQty id st))
          = kept (on_lines_for id (lowered ∘ bumped) (cart st))) as Hcart.
  { rewrite decQty_cart, incQty_cart. by rewrite (on_lines_for_twice id bumped). }
  split.
  - intros Hint.
    change (decQty id (incQty id st))
      with (setCart (λ c, kept (on_lines_for id lowered (on_lines_for id bumped c))) st).
    apply setCart_id. rewrite (on_lines_for_twice id bumped) by done.
    rewrite on_lines_for_id; [by apply kept_id|].
    intros x Hx Hfor. destruct (Hint x Hx Hfor) as (n & Hn & Hlt).
    apply (lowered_bumped x n Hn). split; [|done].
    apply (proj1 (Forall_forall _ _) Hpos) in Hx.
    rewrite Hn, gt_of_Z in Hx. by apply bool_decide_eq_true in Hx.
  - intros Hcap. rewrite Hcart.
    assert (on_lines_for id (lowered ∘ bumped) (cart st)
            = on_lines_for id (λ x, {| product := product x; qty := of_Z 998 |}) (cart st)) as ->.
    { unfold on_lines_for. apply list_fmap_ext. intros i x Hx%list_elem_of_lookup_2.
      destruct (strict_eq _ _) eqn:E; [|done]. simpl. apply lowered_bumped_999. by apply Hcap. }
    apply kept_id. apply Forall_fmap, Forall_forall. intros x Hx. simpl.
    destruct (strict_eq _ _); [done|].
    by apply (proj1 (Forall_forall _ _) Hpos).
Qed.

Lemma inc_dec_roundtrip_witness :
  decQty (JStr "A") (incQty (JStr "A") cartA) = cartA
  ∧ cart (decQty (JStr "A") (incQty (JStr "A") cartA_999))
    = [{| product := itemA; qty := of_Z 998 |}; {| product := itemC; qty := of_Z 1 |}].
Proof.
  destruct (inc_dec_roundtrip cartA (JStr "A")) as [Hround _].
  { by exists [AddToCart itemA]. }
  destruct (inc_dec_roundtrip cartA_999 (JStr "A")) as [_ Hcap].
  { by eexists. }
  split.
  - apply Hround. intros x Hx _. apply list_elem_of_singleton in Hx. subst x.
    exists 1%Z. split; [reflexivity | lia].
  - rewrite Hcap; [reflexivity|]. intros x Hx Hfor.
    apply elem_of_cons in Hx as [->|Hx]; [reflexivity|].
    apply list_elem_of_singleton in Hx. subst x. vm_compute in Hfor. discriminate.
Defined.

(** C7 as stated fails on a fractional quantity, which the quantity field
    accepts: at 998.5, strictly below 999, the round trip ends at 998. *)
Lemma inc_dec_roundtrip_fraction :
  reachable cartA_fraction
  ∧ (∀ x, x ∈ cart cartA_fraction → line_for (JStr "A") x ∧ lt (qty x) (of_Z 999) = true)
  ∧ decQty (JStr "A") (incQty (JStr "A") cartA_fraction) ≠ cartA_fraction
  ∧ qty <$> cart cartA_fraction = [Fin (Q2Qc 998.5)]
  ∧ qty <$> cart (decQty (JStr "A") (incQty (JStr "A") cartA_fraction)) = [of_Z 998].
Proof.
  split; [by eexists|]. split; [|split; [|split]].
  - intros x Hx. apply list_elem_of_singleton in Hx. subst x. split; by vm_compute.
  - intros Heq. apply (f_equal (λ st, qty <$> cart st)) in Heq. vm_compute in Heq.
    discriminate.
  - reflexivity.
  - reflexivity.
Qed.

(** C3 at the failing input: after [updateQty] with 1000 the line holds 1000,
    not 999; the next [incQty] then brings it down to 999. *)
Lemma updateQty_above_cap :
  reachable cartA_1000
  ∧ qty <$> cart cartA_1000 = [of_Z 1000]
  ∧ qty <$> cart (incQty (JStr "A") cartA_1000) = [of_Z 999].
Proof. split; [by eexists|]. split; reflexivity. Qed.

(** *** The total *)

Lemma foldl_add (t : CartLine → number) a c :
  foldl (λ sum x, add sum (t x)) a c = add a (foldr (λ x acc, add (t x) acc) (of_Z 0) c).
Proof.
  revert a. induction c as [|x c IH]; intros a; cbn [foldl foldr].
  - by rewrite add_0_r.
  - by rewrite IH, add_assoc.
Qed.

(** [reduce] adds the lines up. *)
Lemma cartTotal_sum c :
  cartTotal c = foldr (λ x acc, add (line_total x) acc) (of_Z 0) c.
Proof. unfold cartTotal. by rewrite (foldl_add line_total), add_0_l. Qed.






Lemma whole_line_total x pq : whole_line x pq → line_total x = of_Z (pq.1 * pq.2).
Proof. intros (Hp & Hq & _). unfold line_total. by rewrite Hp, Hq, of_Z_mul. Qed.

(** The total of a cart of whole prices and quantities. *)
Lemma cartTotal_whole c pqs :
  Forall2 whole_line c pqs → cartTotal c = of_Z (exact_total pqs).
Proof.
  rewrite cartTotal_sum. induction 1 as [|x pq c pqs Hx _ IH]; [done|].
  cbn [foldr exact_total]. rewrite IH, (whole_line_total x pq Hx). apply of_Z_add.
Qed.





End CartFacts.

(** ** The checkout *)

Module CheckoutFacts.
Import JS JSFacts Dashboard CartSpec Sample CartFacts.
#[local] Open Scope js_scope.

(** [s.trim()] is empty exactly when [s] is blank. *)
Lemma trimStart_blank s : trimStart s = EmptyString ↔ blank s.
Proof.
  split; [|apply trimStart_ws].
  unfold blank. induction s as [|a s IH]; cbn [trimStart list_ascii_of_string]; [by constructor|].
  destruct (is_ws a) eqn:E; [|done]. intros Hs. constructor; [done | by apply IH].
Qed.

Lemma trimStart_head s a s' : trimStart s = String a s' → is_ws a = false.
Proof.
  induction s as [|b s IH]; cbn [trimStart]; [done|].
  destruct (is_ws b) eqn:E; [done|]. by intros [= -> _].
Qed.

Lemma trim_blank s : trim s = EmptyString ↔ blank s.
Proof.
  rewrite <- trimStart_blank. unfold trim.
  destruct (trimStart s) as [|a t] eqn:E; [done|].
  apply trimStart_head in E. cbn [trimEnd]. rewrite E. done.
Qed.

Lemma truthy_trim s : truthy (JStr (trim s)) = false ↔ blank s.
Proof.
  rewrite <- trim_blank. unfold truthy.
  by rewrite negb_false_iff, bool_decide_eq_true.
Qed.

(** The four validation failures. *)
Lemma confirmOrder_blank post load st :
  blank (deliveryAddress st) →
  confirmOrder post load st = setErr MissingAddressError st ∧ confirmOrder_request st = None.
Proof.
  intros Hb%truthy_trim. unfold confirmOrder, confirmOrder_request. by rewrite Hb.
Qed.

Lemma confirmOrder_no_supplier post load st :
  ¬ blank (deliveryAddress st) → truthy (cartSupplierId (cart st)) = false →
  confirmOrder post load st = setErr MissingSupplierError_confirm st
  ∧ confirmOrder_request st = None.
Proof.
  intros Hb Hs. unfold confirmOrder, confirmOrder_request.
  destruct (truthy (JStr (trim _))) eqn:E; [|by apply truthy_trim in E].
  by rewrite Hs.
Qed.

Lemma placeOrder_empty extra post load st :
  cart st = [] →
  placeOrder extra post load st = setTab "products" (setErr EmptyCartError st)
  ∧ placeOrder_request extra st = None.
Proof. intros Hc. unfold placeOrder, placeOrder_request. by rewrite Hc. Qed.

Lemma placeOrder_no_supplier extra post load st :
  cart st ≠ [] → truthy (cartSupplierId (cart st)) = false →
  placeOrder extra post load st = setErr MissingSupplierError st
  ∧ placeOrder_request extra st = None.
Proof.
  intros Hc Hs. unfold placeOrder, placeOrder_request.
  case_bool_decide as Hlen; [by destruct (cart st)|]. by rewrite Hs.
Qed.

Lemma placeOrder_rejected extra post load st :
  rejected post → cart (placeOrder extra post load st) = cart st.
Proof.
  intros Hpost. unfold placeOrder. case_bool_decide; [done|].
  destruct (negb _); [done|].
  destruct (payload extra (cart st)); [|done].
  by destruct post as [|[]].
Qed.

Lemma confirmOrder_rejected post load st :
  rejected post → cart (confirmOrder post load st) = cart st.
Proof.
  intros Hpost. unfold confirmOrder. repeat (destruct (negb _); [done|]).
  by apply (placeOrder_rejected _ _ _ (setErr "" st)).
Qed.

(** C4 (as amended). Submission validation and atomicity.  The "Confirm
    Order" handler fails with the missing-address message when the delivery
    address is empty or white space only, whatever the cart; otherwise with
    its missing-supplier message when no supplier identifier resolves for the
    cart, which is the case of the empty cart; in both cases it sends nothing
    and changes the error alone.  [placeOrder] on its own fails with the
    empty-cart message on an empty cart (and shows the products tab) and with
    the missing-supplier message on a non-empty cart without supplier; it does
    not look at the address.  On each of these failures, and whenever the
    order-creation request is rejected, the cart is as before. *)
Theorem submit_validation (st : state) (extra : Extra.t)
    (post : post_outcome) (load : orders_outcome) :
  (blank (deliveryAddress st) →
     confirmOrder post load st = setErr MissingAddressError st
     ∧ confirmOrder_request st = None
     ∧ cart (confirmOrder post load st) = cart st)
  ∧ (¬ blank (deliveryAddress st) → truthy (cartSupplierId (cart st)) = false →
     confirmOrder post load st = setErr MissingSupplierError_confirm st
     ∧ confirmOrder_request st = None
     ∧ cart (confirmOrder post load st) = cart st)
  ∧ (cart st = [] → truthy (cartSupplierId (cart st)) = false)
  ∧ (cart st = [] →
     placeOrder extra post load st = setTab "products" (setErr EmptyCartError st)
     ∧ placeOrder_request extra st = None
     ∧ cart (placeOrder extra post load st) = cart st)
  ∧ (cart st ≠ [] → truthy (cartSupplierId (cart st)) = false →
     placeOrder extra post load st = setErr MissingSupplierError st
     ∧ placeOrder_request extra st = None
     ∧ cart (placeOrder extra post load st) = cart st)
  ∧ (rejected post →
     cart (placeOrder extra post load st) = cart st
     ∧ cart (confirmOrder post load st) = cart st).
Proof.
  repeat apply conj.
  - intros Hb. destruct (confirmOrder_blank post load st Hb) as [-> ->]. done.
  - intros Hb Hs. destruct (confirmOrder_no_supplier post load st Hb Hs) as [-> ->]. done.
  - by intros ->.
  - intros Hc. destruct (placeOrder_empty extra post load st Hc) as [-> ->]. done.
  - intros Hc Hs. destruct (placeOrder_no_supplier extra post load st Hc Hs) as [-> ->]. done.
  - intros Hpost. split; [by apply placeOrder_rejected | by apply confirmOrder_rejected].
Qed.

Lemma submit_validation_witness :
  confirmOrder (PostResponse true "") (OrdersResponse true "" []) checkout_blank
    = setErr MissingAddressError checkout_blank
  ∧ cart (confirmOrder (PostResponse true "") (OrdersResponse true "" []) checkout_blank)
    = cart checkout_blank
  ∧ err (confirmOrder (PostResponse true "") (OrdersResponse true "" []) checkout_empty)
    = MissingSupplierError_confirm
  ∧ err (placeOrder Extra.empty (PostResponse true "") (OrdersResponse true "" []) init)
    = EmptyCartError
  ∧ cart (confirmOrder (PostResponse false "Out of stock") (OrdersResponse true "" []) checkout_card)
    = cart checkout_card.
Proof.
  pose proof (submit_validation checkout_blank Extra.empty
                (PostResponse true "") (OrdersResponse true "" [])) as (Hblank & _).
  pose proof (submit_validation checkout_empty Extra.empty
                (PostResponse true "") (OrdersResponse true "" [])) as (_ & Hsupplier & _).
  pose proof (submit_validation init Extra.empty
                (PostResponse true "") (OrdersResponse true "" [])) as (_ & _ & _ & Hempty & _).
  pose proof (submit_validation checkout_card Extra.empty
                (PostResponse false "Out of stock") (OrdersResponse true "" []))
    as (_ & _ & _ & _ & _ & Hrejected).
  destruct Hblank as (H1 & _ & H2).
  { apply trim_blank. reflexivity. }
  destruct Hsupplier as (H3 & _ & _).
  { intros H%trim_blank. vm_compute in H. discriminate. }
  { reflexivity. }
  destruct Hempty as (H4 & _ & _); [reflexivity|].
  destruct Hrejected as [_ H5]; [exact I|].
  rewrite H3, H4. split; [exact H1|]. split; [exact H2|]. split; [reflexivity|].
  split; [reflexivity | exact H5].
Defined.

(** C4 as stated fails whichever function is taken for [submit].  The
    "Confirm Order" handler on an empty cart (the last line removed while the
    form is open) with an address reports the missing supplier, not the empty
    cart; [placeOrder] on its own does not check the address and sends the
    order with an address of three spaces. *)
Lemma submit_errors_differ :
  (reachable checkout_empty
   ∧ cart checkout_empty = []
   ∧ err (confirmOrder (PostResponse true "") (OrdersResponse true "" []) checkout_empty)
     = MissingSupplierError_confirm
   ∧ err (confirmOrder (PostResponse true "") (OrdersResponse true "" []) checkout_empty)
     ≠ EmptyCartError)
  ∧ (blank (deliveryAddress checkout_blank)
     ∧ Payload.delivery_address
         <$> placeOrder_request (checkoutDetails checkout_blank) checkout_blank
       = Some (JStr "   ")
     ∧ err (placeOrder (checkoutDetails checkout_blank) (PostResponse true "")
              (OrdersResponse true "" []) checkout_blank)
       ≠ MissingAddressError).
Proof.
  split.
  - split; [by eexists|]. repeat split; try reflexivity. vm_compute. discriminate.
  - split; [apply trim_blank; reflexivity|]. split; [reflexivity|].
    vm_compute. discriminate.
Qed.

(** *** The payment method *)

Lemma loadOrders_paymentMethod o st : paymentMethod (loadOrders o st) = paymentMethod st.
Proof. by destruct o as [|[] ? ?]. Qed.

Lemma placeOrder_paymentMethod extra post load st :
  paymentMethod (placeOrder extra post load st) = paymentMethod st
  ∨ paymentMethod (placeOrder extra post load st) = "cash".
Proof.
  unfold placeOrder. case_bool_decide; [by left|].
  destruct (negb _); [by left|].
  destruct (payload extra (cart st)); simpl; [|by left].
  destruct post as [|[]]; simpl; [by left| |by left].
  right. by destruct load as [|[] ? ?].
Qed.

Lemma confirmOrder_paymentMethod post load st :
  paymentMethod (confirmOrder post load st) = paymentMethod st
  ∨ paymentMethod (confirmOrder post load st) = "cash".
Proof.
  unfold confirmOrder. repeat (destruct (negb _); [by left|]).
  apply (placeOrder_paymentMethod _ _ _ (setErr "" st)).
Qed.

Lemma addToCart_paymentMethod p st : paymentMethod (addToCart p st) = paymentMethod st.
Proof. unfold addToCart. destruct (negb _); [done|]. by destruct (_ && _). Qed.

Lemma updateQty_paymentMethod id q st : paymentMethod (updateQty id q st) = paymentMethod st.
Proof. unfold updateQty. by destruct (negb _). Qed.

(** The payment method of the form is always one of the three options. *)
Lemma reachable_paymentMethod st :
  reachable st → paymentMethod st ∈ ["cash"; "bank"; "card"].
Proof.
  revert st. apply reachable_ind; [by left|].
  intros st a _ IH. destruct a; cbn [step]; try done.
  - by rewrite addToCart_paymentMethod.
  - by rewrite updateQty_paymentMethod.
  - by left.
  - destruct o; simpl; [by left | by right; left | by right; right; left].
  - destruct (confirmOrder_paymentMethod post load st) as [-> | ->]; [done | by left].
  - by rewrite loadOrders_paymentMethod.
Qed.

Lemma payload_payment_method extra c p :
  payload extra c = Normal p →
  Payload.payment_method p = Extra.payment_method extra || JStr "cash".
Proof.
  unfold payload. destruct (mapM _ c); simpl; [|done]. by intros [= <-].
Qed.

Lemma placeOrder_request_payment_method extra st p :
  placeOrder_request extra st = Some p →
  Payload.payment_method p = Extra.payment_method extra || JStr "cash".
Proof.
  unfold placeOrder_request. case_bool_decide; [done|].
  destruct (negb _); [done|].
  destruct (payload extra (cart st)) eqn:E; [|done].
  intros [= <-]. by eapply payload_payment_method.
Qed.

(** C8. The payment method of an order.  Whatever [placeOrder] sends carries
    "cash" when its argument leaves the payment method unset (undefined, or
    any falsy value); and whatever a click on "Confirm Order" sends, in any
    state the component can reach, carries one of "cash", "card", "bank". *)
Theorem payment_method_constraint (st : state) (extra : Extra.t) (p : Payload.t) :
  (placeOrder_request extra st = Some p →
   truthy (Extra.payment_method extra) = false →
   Payload.payment_method p = JStr "cash")
  ∧ (reachable st → confirmOrder_request st = Some p →
     Payload.payment_method p ∈ payment_methods).
Proof.
  split.
  - intros Hp Hunset. rewrite (placeOrder_request_payment_method _ _ _ Hp).
    by apply or_falsy.
  - intros Hst Hp. unfold confirmOrder_request in Hp.
    repeat (destruct (negb _); [done|]).
    rewrite (placeOrder_request_payment_method _ _ _ Hp). cbn [checkoutDetails Extra.payment_method].
    apply reachable_paymentMethod in Hst. unfold payment_methods.
    repeat (apply elem_of_cons in Hst as [->|Hst]); [| | |by apply elem_of_nil in Hst];
      rewrite or_truthy by done.
    + by left.
    + by right; right; left.
    + by right; left.
Qed.

Lemma payment_method_constraint_witness :
  (Payload.payment_method <$> placeOrder_request Extra.empty cartA) = Some (JStr "cash")
  ∧ (Payload.payment_method <$> confirmOrder_request checkout_card) = Some (JStr "card").
Proof.
  destruct (placeOrder_request Extra.empty cartA) as [p|] eqn:Ep; [|by vm_compute in Ep].
  destruct (confirmOrder_request checkout_card) as [p'|] eqn:Ep'; [|by vm_compute in Ep'].
  pose proof (proj1 (payment_method_constraint cartA Extra.empty p) Ep eq_refl) as H1.
  assert (reachable checkout_card) as Hst by by eexists.
  pose proof (proj2 (payment_method_constraint checkout_card Extra.empty p') Hst Ep') as H2.
  split; cbn [fmap option_fmap option_map]; f_equal; [exact H1|].
  vm_compute in Ep'. injection Ep' as <-. reflexivity.
Defined.

End CheckoutFacts.

(** ** The supplier's buyers *)

Module BuyersFacts.
Import JS JSFacts SupermarketController BuyersSpec.
#[local] Open Scope js_scope.

#[global] Instance revenue_desc_trans : Transitive revenue_desc.
Proof. intros a b c Hab Hbc. unfold revenue_desc in *. by etrans. Qed.

#[global] Instance revenue_desc_total : Total revenue_desc.
Proof. intros a b. unfold revenue_desc. destruct (total Qcle (Row.totalRevenue a) (Row.totalRevenue b)); auto. Qed.

Lemma sum_amounts_snoc g o :
  sum_amounts (g ++ [o]) = (sum_amounts g + Order.totalAmount o)%Qc.
Proof.
  unfold sum_amounts. induction g as [|x g IH]; simpl.
  - ring.
  - rewrite IH. ring.
Qed.

(** The accumulators after the documents [docs], buyer by buyer. *)
Lemma accumulate_lookup docs b :
  match foldl accumulate ∅ docs !! b with
  | None => filter (λ o, Order.supermarket o = b) docs = []
  | Some r => summarises r b (filter (λ o, Order.supermarket o = b) docs)
              ∧ filter (λ o, Order.supermarket o = b) docs ≠ []
  end.
Proof.
  induction docs as [|o docs IH] using rev_ind; [done|].
  rewrite foldl_snoc, filter_app. unfold accumulate at 1.
  destruct (decide (Order.supermarket o = b)) as [<-|Hne].
  - rewrite lookup_insert_eq, filter_cons_True, filter_nil by done.
    destruct (foldl accumulate ∅ docs !! Order.supermarket o) as [r|].
    + destruct IH as [(Hid & Hn & Hsum & (o' & Ho' & Hmax) & Hle) Hg].
      split; [|by destruct (filter _ docs)].
      repeat split; cbn.
      * done.
      * rewrite Hn, length_app. done.
      * by rewrite Hsum, sum_amounts_snoc.
      * destruct (Z.max_spec (Row.lastOrderDate r) (Order.createdAt o)) as [[? ->]|[? ->]].
        -- exists o. split; [|done]. apply elem_of_app. right. by left.
        -- exists o'. split; [|done]. apply elem_of_app. by left.
      * intros x [Hx|Hx%list_elem_of_singleton]%elem_of_app.
        -- apply Hle in Hx. lia.
        -- subst x. lia.
    + rewrite IH. split; [|done]. repeat split; cbn.
      * unfold sum_amounts. simpl. ring.
      * exists o. split; [by left | done].
      * intros x Hx%list_elem_of_singleton. by subst x.
  - rewrite lookup_insert_ne, filter_cons_False, filter_nil, app_nil_r by done. apply IH.
Qed.






(** The pipeline as a whole. *)
Lemma aggregate_perm s orders :
  aggregate s orders ≡ₚ group_stage (match_stage s orders).
Proof. apply merge_sort_Permutation. Qed.









(** The specification's example: SM1 with two orders and 150, then SM2 with
    one order and 75; the order of supplier SUP2 is left out. *)
Example buyers_aggregation_example :
  (λ r, (Buyer.supermarketId r, Buyer.totalOrders r, Buyer.totalRevenue r,
         Buyer.lastOrderDate r, Buyer.name r))
    <$> getSupplierBuyers "SUP1" sample_orders sample_supermarkets
  = [("SM1", 2, Q2Qc 150, 7%Z, JStr "Fresh Mart");
     ("SM2", 1, Q2Qc 75, 1%Z, JStr "Unknown")].
Proof. vm_compute. reflexivity. Qed.

(** *** Buyers without a record *)

Lemma new_Map_lookup_None entries k :
  k ∉ entries.*1 → new_Map entries !! k = None.
Proof.
  unfold new_Map. induction entries as [|[k' m] entries IH] using rev_ind; [done|].
  rewrite fmap_app, not_elem_of_app, foldl_snoc. cbn.
  intros [Hk [Hne _]%not_elem_of_cons]. rewrite lookup_insert_ne by congruence. by apply IH.
Qed.

Lemma new_Map_lookup_Some entries k m :
  new_Map entries !! k = Some m → (k, m) ∈ entries.
Proof.
  unfold new_Map. induction entries as [|[k' m'] entries IH] using rev_ind; [done|].
  rewrite foldl_snoc, elem_of_app. cbn.
  destruct (decide (k' = k)) as [->|Hne].
  - rewrite lookup_insert_eq. intros [= ->]. right. by left.
  - rewrite lookup_insert_ne by done. intros Hm. left. by apply IH.
Qed.

(** The [Map] of the controller has no entry for a buyer the directory lacks. *)
Lemma directory_lookup_None ids supermarkets k :
  (∀ m, m ∈ supermarkets → Supermarket._id m ≠ k) →
  new_Map ((λ m, (toString (Supermarket._id m), m)) <$> find_in ids supermarkets) !! k = None.
Proof.
  intros Hk. apply new_Map_lookup_None. rewrite <- list_fmap_compose.
  intros (m & -> & Hm)%list_elem_of_fmap. simpl in *.
  unfold find_in in Hm. apply list_elem_of_filter in Hm as [_ Hm]. by apply (Hk m).
Qed.

Lemma summary_totals map r :
  Buyer.supermarketId (summary map r) = Row._id r
  ∧ Buyer.totalOrders (summary map r) = Row.totalOrders r
  ∧ Buyer.totalRevenue (summary map r) = Row.totalRevenue r
  ∧ Buyer.lastOrderDate (summary map r) = Row.lastOrderDate r.
Proof. done. Qed.

(** C9. Buyers without a record.  The response has one entry per group of
    the aggregation, in the same order, each with the group's buyer, count,
    revenue and last order date, whether or not the directory knows the
    buyer; and the entry of a group whose buyer has no record in the
    directory carries the name "Unknown" and an empty contact email and
    address. *)
Theorem missing_buyer_placeholder (supplierId : string) (orders : list Order.t)
    (supermarkets : list Supermarket.t) :
  List.length (getSupplierBuyers supplierId orders supermarkets)
    = List.length (aggregate supplierId orders)
  ∧ (∀ i r, aggregate supplierId orders !! i = Some r →
       ∃ b, getSupplierBuyers supplierId orders supermarkets !! i = Some b
            ∧ Buyer.supermarketId b = Row._id r
            ∧ Buyer.totalOrders b = Row.totalOrders r
            ∧ Buyer.totalRevenue b = Row.totalRevenue r
            ∧ Buyer.lastOrderDate b = Row.lastOrderDate r)
  ∧ (∀ i r, aggregate supplierId orders !! i = Some r →
       (∀ m, m ∈ supermarkets → Supermarket._id m ≠ Row._id r) →
       getSupplierBuyers supplierId orders supermarkets !! i
       = Some {| Buyer.supermarketId := Row._id r;
                 Buyer.name := JStr "Unknown";
                 Buyer.contactEmail := JStr "";
                 Buyer.address := JStr "";
                 Buyer.totalOrders := Row.totalOrders r;
                 Buyer.totalRevenue := Row.totalRevenue r;
                 Buyer.lastOrderDate := Row.lastOrderDate r |}).
Proof.
  unfold getSupplierBuyers. split; [by rewrite length_fmap|]. split.
  - intros i r Hr. eexists. rewrite list_lookup_fmap, Hr. split; [done|].
    apply summary_totals.
  - intros i r Hr Hmissing. rewrite list_lookup_fmap, Hr. cbn. f_equal.
    unfold summary, toString. by rewrite directory_lookup_None.
Qed.

(** In the example SM2 has no record: its entry is the placeholder one, next
    to the full entry of SM1. *)
Lemma missing_buyer_placeholder_witness :
  getSupplierBuyers "SUP1" sample_orders sample_supermarkets !! 1
  = Some {| Buyer.supermarketId := "SM2";
            Buyer.name := JStr "Unknown";
            Buyer.contactEmail := JStr "";
            Buyer.address := JStr "";
            Buyer.totalOrders := 1;
            Buyer.totalRevenue := Q2Qc 75;
            Buyer.lastOrderDate := 1 |}.
Proof.
  destruct (missing_buyer_placeholder "SUP1" sample_orders sample_supermarkets)
    as (_ & _ & Hmissing).
  apply (Hmissing 1 {| Row._id := "SM2"; Row.totalOrders := 1;
                       Row.totalRevenue := Q2Qc 75; Row.lastOrderDate := 1 |}).
  - vm_compute. reflexivity.
  - intros m Hm. apply list_elem_of_singleton in Hm. subst m. discriminate.
Defined.

End BuyersFacts.

(** ** More on the cart *)

Module CartMore.
Import JS JSFacts JSString Dashboard CartSpec Page MoreSpec Sample CartFacts.
#[local] Open Scope js_scope.

(** Induction over the carts the component can hold, by the five rewrites of
    the handlers. *)
Lemma reachable_cart_rewrites (P : list CartLine → Prop) :
  P [] →
  (∀ p c, accepted p c = true → P c → P (added p c)) →
  (∀ id c, P c → P (on_lines_for id bumped c)) →
  (∀ id c, P c → P (kept (on_lines_for id lowered c))) →
  (∀ id r c, P c → P (kept (on_lines_for id (with_qty (Fin r)) c))) →
  ∀ st, reachable st → P (cart st).
Proof.
  intros Hnil Hadded Hbumped Hlowered Hset. apply reachable_ind; [done|].
  intros st a _ IH.
  destruct a as [p | id qv | id | id | | v | | | v | v | o | v | post load | load | ];
    cbn [step]; try done.
  - rewrite addToCart_cart. destruct (accepted _ _) eqn:Hacc; [by apply Hadded | done].
  - rewrite updateQty_cart. destruct (ToNumber qv) as [| | |r]; cbn [isFinite]; try done.
    by apply Hset.
  - rewrite incQty_cart. by apply Hbumped.
  - rewrite decQty_cart. by apply Hlowered.
  - destruct (confirmOrder_cart post load st) as [-> | ->]; done.
  - by rewrite loadOrders_cart.
Qed.

(** *** Finite quantities and the item count *)

Lemma bumped_finite x : finite_qty x → finite_qty (bumped x).
Proof.
  unfold finite_qty. destruct x as [p [| | |r]]; cbn [qty bumped]; try done.
  intros _. unfold min, add, of_Z. by destruct (lt _ _).
Qed.

Lemma lowered_finite x : finite_qty x → finite_qty (lowered x).
Proof.
  unfold finite_qty. destruct x as [p [| | |r]]; cbn [qty lowered]; try done.
  intros _. unfold max, sub, add, neg, of_Z. by destruct (lt _ _).
Qed.

Lemma with_qty_finite r x : finite_qty (with_qty (Fin r) x).
Proof. unfold finite_qty, with_qty. cbn [qty]. unfold max, of_Z. by destruct (lt _ _). Qed.

Lemma on_lines_for_Forall (P : CartLine → Prop) id f c :
  (∀ x, P x → P (f x)) → Forall P c → Forall P (on_lines_for id f c).
Proof.
  intros Hf Hc. apply Forall_fmap. eapply Forall_impl; [exact Hc|].
  intros x Hx. unfold compose. by destruct (strict_eq _ _); [apply Hf|].
Qed.

Lemma kept_Forall (P : CartLine → Prop) c : Forall P c → Forall P (kept c).
Proof.
  rewrite !Forall_forall. intros Hc x Hx%kept_products. by apply Hc.
Qed.

Lemma reachable_finite st : reachable st → Forall finite_qty (cart st).
Proof.
  revert st. apply reachable_cart_rewrites.
  - constructor.
  - intros p c _ Hc. unfold added. destruct (list_find _ c) as [[idx x]|] eqn:Hfind.
    + apply list_find_Some in Hfind as (Hx & _ & _).
      apply Forall_forall. intros y [->|Hy]%elem_of_insert_inv.
      * apply bumped_finite.
        by apply (proj1 (Forall_forall _ _) Hc), (list_elem_of_lookup_2 _ idx).
      * by apply (proj1 (Forall_forall _ _) Hc).
    + apply Forall_app. split; [done|]. by repeat constructor.
  - intros id c. apply on_lines_for_Forall, bumped_finite.
  - intros id c Hc. apply kept_Forall, on_lines_for_Forall; [apply lowered_finite | done].
  - intros id r c Hc. apply kept_Forall, on_lines_for_Forall; [|done].
    intros x _. apply with_qty_finite.
Qed.

Lemma reachable_finite_quantities st : reachable st → finite_quantities (cart st).
Proof.
  intros Hst. pose proof (reachable_finite st Hst) as Hfin.
  pose proof (reachable_positive st Hst) as Hpos.
  unfold finite_quantities. apply Forall_forall. intros x Hx.
  apply (proj1 (Forall_forall _ _) Hfin) in Hx as Hf.
  apply (proj1 (Forall_forall _ _) Hpos) in Hx as Hp.
  unfold finite_qty in Hf. destruct (qty x) as [| | |r]; try done.
  exists r. split; [done|]. by rewrite gt_0_Fin, bool_decide_eq_true in Hp.
Qed.

Lemma cartItemsCount_from a c :
  finite_quantities c → (0 ≤ a)%Qc →
  ∃ n, foldl (λ n x, add n (ToNumber (JNum (qty x) || JNum (of_Z 0)))) (Fin a) c = Fin n
       ∧ (a ≤ n)%Qc ∧ (c ≠ [] → (a < n)%Qc).
Proof.
  intros Hc. revert a. induction Hc as [|x c (r & Hr & Hpos) _ IH]; intros a Ha.
  - exists a. cbn. split; [done|]. split; [done | by intros []].
  - cbn [foldl]. rewrite Hr.
    assert (JNum (Fin r) || JNum (of_Z 0) = JNum (Fin r)) as ->.
    { apply or_truthy. cbn. apply negb_true_iff, bool_decide_eq_false.
      intros [= ->]. by apply (irreflexivity Qclt) in Hpos. }
    cbn [ToNumber add].
    assert (a < a + r)%Qc as Hlt.
    { rewrite <- (Qcplus_0_r a) at 1. by apply Qcplus_lt_mono_l. }
    destruct (IH (a + r)%Qc) as (n & Hn & Hle & _).
    { eapply Qcle_trans; [exact Ha | by apply Qclt_le_weak]. }
    exists n. split; [done|].
    assert (a < n)%Qc by by eapply Qclt_le_trans.
    split; [by apply Qclt_le_weak | done].
Qed.

Lemma cartItemsCount_whole c qs :
  positive_quantities c → Forall2 (λ x q, qty x = of_Z q) c qs →
  cartItemsCount c = of_Z (units qs).
Proof.
  intros Hpos Hc. unfold cartItemsCount.
  rewrite (foldl_add (λ x, ToNumber (JNum (qty x) || JNum (of_Z 0)))), add_0_l.
  induction Hc as [|x q c qs Hx _ IH]; [done|].
  apply Forall_cons in Hpos as [Hgt Hpos].
  cbn [foldr units]. rewrite (IH Hpos), Hx. rewrite Hx, gt_of_Z in Hgt.
  apply bool_decide_eq_true in Hgt.
  rewrite (or_truthy (JNum (of_Z q))).
  - apply of_Z_add.
  - cbn [truthy isNaN of_Z negb andb]. apply negb_true_iff, bool_decide_eq_false.
    change (Fin (Q2Qc (inject_Z ?k))) with (of_Z k). intros E%of_Z_inj. lia.
Qed.

(** X2. In every state the component can reach every quantity of the cart is
    a finite number above zero, and the item count of the header
    ([cartItemsCount]) is zero for the empty cart and above zero for any
    other.  When the quantities are integers that add up to at most
    [MAX_SAFE_INTEGER], the count is exactly their sum. *)
Theorem cart_item_count (st : state) :
  reachable st →
  finite_quantities (cart st)
  ∧ (cart st = [] → cartItemsCount (cart st) = of_Z 0)
  ∧ (cart st ≠ [] → gt (cartItemsCount (cart st)) (of_Z 0) = true)
  ∧ (∀ qs, Forall2 (λ x q, qty x = of_Z q) (cart st) qs →
       (units qs ≤ MAX_SAFE_INTEGER)%Z →
       cartItemsCount (cart st) = of_Z (units qs)).
Proof.
  intros Hst. pose proof (reachable_finite_quantities st Hst) as Hc.
  split; [done|]. split; [by intros ->|]. split.
  - intros Hne.
    destruct (cartItemsCount_from (Q2Qc 0) (cart st) Hc) as (n & Hn & _ & Hpos); [done|].
    change (Fin (Q2Qc 0)) with (of_Z 0) in Hn. unfold cartItemsCount. rewrite Hn.
    rewrite gt_0_Fin. apply bool_decide_eq_true. by apply Hpos.
  - intros qs Hqs _. apply cartItemsCount_whole; [by apply reachable_positive | done].
Qed.

Lemma cart_item_count_witness :
  finite_quantities (cart cartA_999)
  ∧ gt (cartItemsCount (cart cartA_999)) (of_Z 0) = true
  ∧ cartItemsCount (cart cartA_999) = of_Z 1000.
Proof.
  assert (reachable cartA_999) as Hst by (eexists; reflexivity).
  destruct (cart_item_count cartA_999 Hst) as (Hfin & _ & Hpos & Hsum).
  split; [exact Hfin|]. split; [by apply Hpos|].
  apply (Hsum [999; 1]%Z).
  - apply Forall2_cons. split; [reflexivity|].
    apply Forall2_cons. split; [reflexivity | apply Forall2_nil; exact I].
  - unfold MAX_SAFE_INTEGER. cbn. lia.
Defined.

(** *** One line per item *)

Lemma apart_sym x y : apart x y → apart y x.
Proof. unfold apart. by rewrite strict_eq_sym. Qed.

Lemma StronglySorted_lookup {A} (R : relation A) l i j x y :
  StronglySorted R l → l !! i = Some x → l !! j = Some y → i < j → R x y.
Proof.
  intros Hl. revert i j. induction Hl as [|z l _ IH Hz]; intros i j Hi Hj Hlt; [done|].
  destruct j as [|j]; [lia|]. destruct i as [|i].
  - injection Hi as ->. cbn in Hj.
    by apply (proj1 (Forall_forall _ _) Hz), (list_elem_of_lookup_2 _ j).
  - cbn in Hi, Hj. apply (IH i j); [done | done | lia].
Qed.

Lemma StronglySorted_filter {A} (R : relation A) (P : A → Prop) `{!∀ x, Decision (P x)} l :
  StronglySorted R l → StronglySorted R (filter P l).
Proof.
  induction 1 as [|x l _ IH Hx]; [constructor|].
  rewrite filter_cons. destruct (decide (P x)); [|done].
  constructor; [done|]. apply Forall_forall. intros y [_ Hy]%list_elem_of_filter.
  by apply (proj1 (Forall_forall _ _) Hx).
Qed.

Lemma StronglySorted_insert {A} (R : relation A) l i x x' :
  (∀ y, R x y → R x' y) → (∀ y, R y x → R y x') →
  l !! i = Some x → StronglySorted R l → StronglySorted R (<[i:=x']> l).
Proof.
  intros Hl Hr Hi Hs. revert i Hi. induction Hs as [|z l Hs IH Hz]; intros i Hi; [done|].
  destruct i as [|i]; cbn in *.
  - injection Hi as ->. constructor; [done|]. eapply Forall_impl; [exact Hz|]. apply Hl.
  - constructor; [by apply IH|].
    apply Forall_forall. intros y [->|Hy]%elem_of_insert_inv.
    + apply Hr. by apply (proj1 (Forall_forall _ _) Hz), (list_elem_of_lookup_2 _ i).
    + by apply (proj1 (Forall_forall _ _) Hz).
Qed.

Lemma apart_on_lines_for id f c :
  (∀ x, product (f x) = product x) →
  StronglySorted apart c → StronglySorted apart (on_lines_for id f c).
Proof.
  intros Hf. apply StronglySorted_fmap. intros x y. unfold apart, line_id.
  destruct (strict_eq (product x?."_id") id), (strict_eq (product y?."_id") id);
    by rewrite ?Hf.
Qed.

Lemma reachable_apart st : reachable st → StronglySorted apart (cart st).
Proof.
  revert st. apply reachable_cart_rewrites.
  - constructor.
  - intros p c _ Hc. unfold added. destruct (list_find _ c) as [[idx x]|] eqn:Hfind.
    + apply list_find_Some in Hfind as (Hx & _ & _).
      by apply (StronglySorted_insert apart c idx x).
    + apply StronglySorted_app_2; [|done|by repeat constructor].
      intros x y Hx Hy%list_elem_of_singleton. subst y.
      apply list_find_None in Hfind. apply (proj1 (Forall_forall _ _) Hfind) in Hx.
      unfold apart, line_id, line_for in *. cbn. by destruct (strict_eq _ _).
  - intros id c. by apply apart_on_lines_for.
  - intros id c Hc. by apply StronglySorted_filter, apart_on_lines_for.
  - intros id r c Hc. by apply StronglySorted_filter, apart_on_lines_for.
Qed.

(** X3. In every state the component can reach, no two lines of the
    cart are for the same item: the identifiers of the products at two
    different positions are never [===]. *)
Theorem one_line_per_item (st : state) :
  reachable st → distinct_lines (cart st).
Proof.
  intros Hst%reachable_apart i j x y Hi Hj Hne.
  destruct (decide (i < j)) as [Hlt|Hge].
  - by apply (StronglySorted_lookup apart (cart st) i j).
  - apply apart_sym. apply (StronglySorted_lookup apart (cart st) j i); [done..|lia].
Qed.

Lemma one_line_per_item_witness :
  strict_eq (line_id {| product := itemA; qty := of_Z 999 |})
            (line_id {| product := itemC; qty := of_Z 1 |}) = false.
Proof.
  assert (reachable cartA_999) as Hst by (eexists; reflexivity).
  apply (one_line_per_item cartA_999 Hst 0 1); [reflexivity | reflexivity | lia].
Defined.

(** *** Quantities within the bounds *)

Lemma bumped_bounded x :
  (∃ n : Z, qty x = of_Z n ∧ (1 ≤ n ≤ 999)%Z) →
  ∃ n : Z, qty (bumped x) = of_Z n ∧ (1 ≤ n ≤ 999)%Z.
Proof.
  intros (n & Hn & Hb). exists (Z.min 999 (n + 1)). split; [by apply bumped_integer | lia].
Qed.

(** A line after [f], when it survives the filter. *)
Lemma kept_on_lines_for_bounded id f c :
  (∀ x n, qty x = of_Z n → (1 ≤ n ≤ 999)%Z →
     ∃ m : Z, qty (f x) = of_Z m ∧ (0 ≤ m ≤ 999)%Z) →
  bounded_quantities c → bounded_quantities (kept (on_lines_for id f c)).
Proof.
  intros Hf Hc. apply Forall_forall. intros y Hy.
  unfold kept in Hy. apply list_elem_of_filter in Hy as [Hpos Hy].
  apply list_elem_of_fmap in Hy as (x & -> & Hx).
  apply (proj1 (Forall_forall _ _) Hc) in Hx as (n & Hn & Hb).
  destruct (strict_eq _ _); [|by exists n].
  destruct (Hf x n Hn Hb) as (m & Hm & Hmb). exists m. split; [done|].
  rewrite Hm, gt_of_Z in Hpos. apply bool_decide_eq_true in Hpos. lia.
Qed.

Lemma step_bounded st a :
  typed_within a → bounded_quantities (cart st) → bounded_quantities (cart (step st a)).
Proof.
  intros Ha Hc.
  destruct a as [p | id qv | id | id | | v | | | v | v | o | v | post load | load | ];
    cbn [step]; try done.
  - rewrite addToCart_cart. destruct (accepted _ _); [|done].
    unfold added. destruct (list_find _ _) as [[idx x]|] eqn:Hfind.
    + apply list_find_Some in Hfind as (Hx & _ & _).
      apply Forall_forall. intros y [->|Hy]%elem_of_insert_inv.
      * apply bumped_bounded.
        by apply (proj1 (Forall_forall _ _) Hc), (list_elem_of_lookup_2 _ idx).
      * by apply (proj1 (Forall_forall _ _) Hc).
    + apply Forall_app. split; [done|]. repeat constructor. exists 1%Z. split; [done | lia].
  - rewrite updateQty_cart. destruct Ha as [Hq | (n & Hq & Hn)]; rewrite Hq; [done|].
    cbn [isFinite of_Z]. apply kept_on_lines_for_bounded; [|done].
    intros x m _ _. exists (Z.max 0 n). split; [|lia].
    unfold with_qty. cbn [qty]. apply max_of_Z.
  - rewrite incQty_cart. apply on_lines_for_Forall; [|done]. apply bumped_bounded.
  - rewrite decQty_cart. apply kept_on_lines_for_bounded; [|done].
    intros x n Hn Hb. exists (Z.max 0 (n - 1)). split; [|lia].
    unfold lowered. cbn [qty]. by rewrite Hn, of_Z_sub, max_of_Z.
  - constructor.
  - destruct (confirmOrder_cart post load st) as [-> | ->]; [done | constructor].
  - by rewrite loadOrders_cart.
Qed.

(** X4. As long as the quantity field only ever receives what is no
    finite number (ignored) or an integer of at most 999, every quantity in
    the cart is an integer from 1 to 999, whatever else the user does. *)
Theorem quantities_within_bounds (l : list action) :
  Forall typed_within l → bounded_quantities (cart (run l)).
Proof.
  induction l as [|a l IH] using rev_ind; [constructor|].
  intros [Hl Ha]%Forall_app. apply Forall_cons in Ha as [Ha _].
  unfold run. rewrite foldl_snoc. by apply step_bounded, IH.
Qed.

Lemma quantities_within_bounds_witness :
  bounded_quantities
    (cart (run [AddToCart itemA; AddToCart itemA; UpdateQty (JStr "A") (JNum (of_Z 998));
                IncQty (JStr "A"); IncQty (JStr "A"); AddToCart itemC; DecQty (JStr "C")])).
Proof.
  apply quantities_within_bounds.
  repeat (apply Forall_cons; split); try exact I; [|apply Forall_nil; exact I].
  right. exists 998%Z. split; [reflexivity | lia].
Defined.

(** *** Decrement, then increment *)

Lemma bumped_lowered x :
  finite_qty x → gt (qty x) (of_Z 1) = true → gt (qty x) (of_Z 999) = false →
  bumped (lowered x) = x.
Proof.
  destruct x as [p [| | |r]]; unfold finite_qty; cbn [qty]; try done.
  intros _ Hlow%bool_decide_eq_true Hhigh%bool_decide_eq_false.
  unfold bumped, lowered. cbn [qty product]. f_equal.
  change (sub (Fin r) (of_Z 1)) with (Fin (r - 1)%Qc). rewrite max_0_Fin.
  rewrite bool_decide_eq_true_2 by (by apply Qclt_minus_iff in Hlow).
  change (add (Fin (r - 1)%Qc) (of_Z 1)) with (Fin (r - 1 + 1)%Qc).
  replace (r - 1 + 1)%Qc with r by ring.
  change (min (of_Z 999) (Fin r))
    with (if bool_decide (r < Q2Qc (inject_Z 999))%Qc then Fin r else of_Z 999).
  case_bool_decide as Hlt; [done|]. unfold of_Z. f_equal.
  apply Qcle_antisym; by apply Qcnot_lt_le.
Qed.

Lemma lowered_gone x :
  finite_qty x → gt (qty x) (of_Z 1) = false → gt (qty (lowered x)) (of_Z 0) = false.
Proof.
  destruct x as [p [| | |r]]; unfold finite_qty; cbn [qty]; try done.
  intros _ Hlow%bool_decide_eq_false. unfold lowered. cbn [qty].
  change (sub (Fin r) (of_Z 1)) with (Fin (r - 1)%Qc). rewrite max_0_Fin.
  rewrite bool_decide_eq_false_2; [done|].
  intros Hpos. apply Hlow. by apply Qclt_minus_iff.
Qed.

Lemma kept_gone id f c :
  positive_quantities c →
  (∀ x, x ∈ c → line_for id x → gt (qty (f x)) (of_Z 0) = false) →
  kept (on_lines_for id f c) = filter (λ x, ¬ line_for id x) c.
Proof.
  unfold kept, on_lines_for.
  induction 1 as [|x c Hx _ IH]; intros Hgone; [done|].
  cbn [fmap list_fmap]. rewrite !filter_cons.
  rewrite IH by (intros y Hy; apply Hgone; by right).
  destruct (decide (¬ line_for id x)) as [Hnot | Hfor%dec_stable].
  - apply not_true_is_false in Hnot. rewrite Hnot. by rewrite decide_True.
  - pose proof (Hgone x ltac:(by left) Hfor) as Hx0. rewrite Hfor.
    rewrite decide_False; [done|]. by rewrite Hx0.
Qed.

Lemma kept_stay id f c :
  positive_quantities c →
  (∀ x, x ∈ c → line_for id x → gt (qty (f x)) (of_Z 0) = true) →
  kept (on_lines_for id f c) = on_lines_for id f c.
Proof.
  intros Hpos Hf. apply kept_id, Forall_fmap, Forall_forall. intros x Hx. unfold compose.
  destruct (strict_eq _ _) eqn:E; [by apply Hf | by apply (proj1 (Forall_forall _ _) Hpos)].
Qed.

(** X5. Decrement then increment.  In every state the component can
    reach, and for every item identifier each of whose lines holds a
    quantity above 1 and of at most 999 (or that has no line), [decQty]
    followed by [incQty] gives back exactly the state before, also when the
    quantity is no integer.  When the lines for the identifier hold at most
    1 the decrement removes them and the increment does not bring them
    back. *)
Theorem dec_inc_roundtrip (st : state) (id : jsval) :
  reachable st →
  ((∀ x, x ∈ cart st → line_for id x →
      gt (qty x) (of_Z 1) = true ∧ gt (qty x) (of_Z 999) = false) →
     incQty id (decQty id st) = st)
  ∧ ((∀ x, x ∈ cart st → line_for id x → gt (qty x) (of_Z 1) = false) →
     cart (incQty id (decQty id st)) = filter (λ x, ¬ line_for id x) (cart st)).
Proof.
  intros Hst. pose proof (reachable_positive st Hst) as Hpos.
  pose proof (reachable_finite st Hst) as Hfin.
  split.
  - intros Hin.
    change (incQty id (decQty id st))
      with (setCart (λ c, on_lines_for id bumped (kept (on_lines_for id lowered c))) st).
    apply setCart_id.
    assert (kept (on_lines_for id lowered (cart st)) = on_lines_for id lowered (cart st)) as ->.
    { apply kept_id. apply Forall_fmap, Forall_forall. intros x Hx. unfold compose.
      destruct (strict_eq _ _) eqn:E; [|by apply (proj1 (Forall_forall _ _) Hpos)].
      destruct (Hin x Hx E) as [Hlow _].
      apply (proj1 (Forall_forall _ _) Hfin) in Hx.
      destruct x as [p [| | |r]]; unfold finite_qty in Hx; cbn [qty] in *; try done.
      apply bool_decide_eq_true in Hlow. unfold lowered. cbn [qty].
      change (sub (Fin r) (of_Z 1)) with (Fin (r - 1)%Qc). rewrite max_0_Fin.
      rewrite bool_decide_eq_true_2 by (by apply Qclt_minus_iff in Hlow).
      rewrite gt_0_Fin. apply bool_decide_eq_true. by apply Qclt_minus_iff in Hlow. }
    rewrite (on_lines_for_twice id lowered) by done.
    apply on_lines_for_id. intros x Hx Hfor. destruct (Hin x Hx Hfor) as [Hlow Hhigh].
    apply bumped_lowered; [|done|done]. by apply (proj1 (Forall_forall _ _) Hfin).
  - intros Hone. rewrite incQty_cart, decQty_cart.
    rewrite (kept_gone id lowered); [|done|].
    + apply on_lines_for_absent. by intros x [Hx _]%list_elem_of_filter.
    + intros x Hx Hfor. apply lowered_gone; [|by apply Hone].
      by apply (proj1 (Forall_forall _ _) Hfin).
Qed.

Lemma dec_inc_roundtrip_witness :
  incQty (JStr "A") (decQty (JStr "A") cartA_fraction) = cartA_fraction
  ∧ cart (incQty (JStr "C") (decQty (JStr "C") cartA_999))
    = [{| product := itemA; qty := of_Z 999 |}].
Proof.
  destruct (dec_inc_roundtrip cartA_fraction (JStr "A")) as [Hround _].
  { by eexists. }
  destruct (dec_inc_roundtrip cartA_999 (JStr "C")) as [_ Hgone].
  { by eexists. }
  split.
  - apply Hround. intros x Hx _. apply list_elem_of_singleton in Hx. subst x.
    split; reflexivity.
  - rewrite Hgone; [reflexivity|]. intros x Hx Hfor.
    apply elem_of_cons in Hx as [-> | Hx]; [discriminate Hfor|].
    apply list_elem_of_singleton in Hx. subst x. reflexivity.
Defined.

(** *** The same item, again and again *)

Lemma addToCart_again p st k :
  truthy (getProductSupplierId p) = true →
  strict_eq (p?."_id") (p?."_id") = true →
  cart st = [{| product := p; qty := of_Z k |}] →
  cart (addToCart p st) = [{| product := p; qty := of_Z (Z.min 999 (k + 1)) |}].
Proof.
  intros Hs Hid Hc. rewrite addToCart_cart, Hc.
  assert (accepted p [{| product := p; qty := of_Z k |}] = true) as ->.
  { unfold accepted. rewrite Hs. cbn [cartSupplierId product].
    by rewrite Hs, strict_eq_refl. }
  unfold added.
  assert (list_find (line_for (p?."_id")) [{| product := p; qty := of_Z k |}]
          = Some (0, {| product := p; qty := of_Z k |})) as ->.
  { apply list_find_Some. split; [done|]. split; [done|]. intros j y _ Hj. lia. }
  change (<[0 := ?b]> [?a]) with [b]. unfold bumped. cbn [product qty].
  by rewrite of_Z_add, min_of_Z.
Qed.

(** X6. Adding one product again and again.  For a product whose
    supplier resolves and whose identifier equals itself (so: is not NaN),
    [n] clicks on "Add" ([n] at least 1) on an empty cart leave one line
    for it, with quantity [n], or 999 from the 999th click on. *)
Theorem repeated_add (p : jsval) (n : nat) (st : state) :
  truthy (getProductSupplierId p) = true →
  strict_eq (p?."_id") (p?."_id") = true →
  cart st = [] →
  0 < n →
  cart (Nat.iter n (addToCart p) st)
  = [{| product := p; qty := of_Z (Z.min 999 (Z.of_nat n)) |}].
Proof.
  intros Hs Hid Hc Hn. destruct n as [|n]; [lia|]. clear Hn.
  induction n as [|n IH].
  - change (Nat.iter 1 (addToCart p) st) with (addToCart p st).
    rewrite addToCart_cart, Hc.
    assert (accepted p [] = true) as ->.
    { unfold accepted. by rewrite Hs. }
    done.
  - rewrite Nat.iter_succ. rewrite (addToCart_again p _ _ Hs Hid IH). do 3 f_equal. lia.
Qed.

Lemma repeated_add_witness :
  cart (Nat.iter 3 (addToCart itemA) init) = [{| product := itemA; qty := of_Z 3 |}]
  ∧ cart (Nat.iter 1000 (addToCart itemA) init) = [{| product := itemA; qty := of_Z 999 |}].
Proof.
  split.
  - apply (repeated_add itemA 3 init); [reflexivity | reflexivity | reflexivity | lia].
  - apply (repeated_add itemA 1000 init); [reflexivity | reflexivity | reflexivity | lia].
Defined.

End CartMore.

(** ** More on the checkout *)

Module CheckoutMore.
Import JS JSFacts Dashboard CartSpec MoreSpec Sample CartFacts CheckoutFacts.
#[local] Open Scope js_scope.

(** A product whose supplier resolves is an object. *)
Lemma supplier_object p :
  truthy (getProductSupplierId p) = true → ∃ ref props, p = JObj ref props.
Proof. destruct p; try done. intros _. by eexists _, _. Qed.

Lemma get_object p k :
  truthy (getProductSupplierId p) = true → get p k = Normal (p?.k).
Proof. by intros (ref & props & ->)%supplier_object. Qed.

(** In a cart whose lines all resolve to a supplier, building the request
    does not throw. *)
Lemma payload_Normal extra c :
  (∀ x, x ∈ c → truthy (supplier_of x) = true) →
  payload extra c =
    Normal {| Payload.supplier_id := cartSupplierId c;
              Payload.items := request_item <$> c;
              Payload.delivery_address := Extra.delivery_address extra || JStr "";
              Payload.delivery_date := Extra.delivery_date extra || JStr "";
              Payload.payment_method := Extra.payment_method extra || JStr "cash";
              Payload.note := Extra.note extra || JStr "";
              Payload.total_amount := cartTotal c |}.
Proof.
  intros Hc. unfold payload.
  assert (mapM (λ x,
             id ← get (product x) "_id";
             pr ← get (product x) "price";
             mret {| Payload.product_id := id; Payload.qty := qty x; Payload.price := pr |}) c
          = Normal (request_item <$> c)) as ->; [|done].
  induction c as [|x c IH]; [done|].
  cbn [mapM]. rewrite !get_object by (apply Hc; by left).
  rewrite IH by (intros y Hy; apply Hc; by right). done.
Qed.

Lemma reachable_resolves st x : reachable st → x ∈ cart st → truthy (supplier_of x) = true.
Proof. intros Hst Hx. by destruct (reachable_same_supplier st Hst x x Hx Hx). Qed.

Lemma reachable_cartSupplierId st :
  reachable st → cart st ≠ [] → truthy (cartSupplierId (cart st)) = true.
Proof.
  intros Hst Hc. destruct (cart st) as [|x c] eqn:E; [done|].
  rewrite cartSupplierId_cons. apply (reachable_resolves st); [done|]. rewrite E. by left.
Qed.

Lemma str_or_nonempty a b : b ≠ "" → str_or a b ≠ "".
Proof. unfold str_or. by case_bool_decide. Qed.

Lemma str_or_twice a b c : b ≠ "" → str_or (str_or a b) c = str_or a b.
Proof. intros Hb. unfold str_or at 1. by rewrite bool_decide_eq_false_2 by by apply str_or_nonempty. Qed.

Lemma not_blank_truthy s : ¬ blank s → truthy (JStr (trim s)) = true ∧ truthy (JStr s) = true.
Proof.
  intros Hb. split.
  - destruct (truthy (JStr (trim s))) eqn:E; [done|]. by apply truthy_trim in E.
  - unfold truthy. apply negb_true_iff, bool_decide_eq_false. intros ->. apply Hb. constructor.
Qed.

Lemma or_empty_string s : JStr s || JStr "" = JStr s.
Proof. unfold or, truthy. case_bool_decide as E; [by rewrite E | done]. Qed.

(** X8. What "Confirm Order" sends.  In every state the component can
    reach, a click on "Confirm Order" sends nothing when the delivery address
    is blank or the cart is empty; otherwise it sends exactly one request,
    built without an exception: the supplier of the cart, the lines of the
    cart one for one and in their order (item identifier, quantity, price),
    the cart's total, and the form's fields as they stand; the address is
    sent as typed, not trimmed. *)
Theorem order_request_contents (st : state) :
  reachable st →
  (blank (deliveryAddress st) ∨ cart st = [] → confirmOrder_request st = None)
  ∧ (¬ blank (deliveryAddress st) → cart st ≠ [] →
     confirmOrder_request st = Some (request_of st)).
Proof.
  intros Hst. split.
  - unfold confirmOrder_request. intros [Hb%truthy_trim | Hc]; [by rewrite Hb|].
    destruct (negb (truthy (JStr _))); [done|]. by rewrite Hc.
  - intros [Htrim Haddr]%not_blank_truthy Hc.
    pose proof (reachable_cartSupplierId st Hst Hc) as Hs.
    unfold confirmOrder_request, placeOrder_request. rewrite Htrim, Hs. cbn [negb].
    rewrite bool_decide_eq_false_2 by (by destruct (cart st)).
    rewrite payload_Normal by (intros x Hx; by apply (reachable_resolves st)).
    unfold request_of, checkoutDetails. cbn [Extra.delivery_address Extra.delivery_date
      Extra.payment_method Extra.note]. rewrite !or_empty_string.
    do 2 f_equal. apply or_truthy.
    pose proof (reachable_paymentMethod st Hst) as Hpm.
    repeat (apply elem_of_cons in Hpm as [-> | Hpm]; [done|]). by apply elem_of_nil in Hpm.
Qed.

Lemma order_request_contents_witness :
  confirmOrder_request checkout_empty = None
  ∧ confirmOrder_request checkout_card = Some (request_of checkout_card).
Proof.
  split.
  - apply (order_request_contents checkout_empty); [by eexists | by right].
  - apply (order_request_contents checkout_card); [by eexists | | done].
    intros Hb. apply truthy_trim in Hb. discriminate Hb.
Defined.

(** The handler never leaves the button disabled, and the toast it sets on
    success is replaced before the state settles. *)
Lemma placeOrder_placing extra post load st :
  placing st = false → placing (placeOrder extra post load st) = false.
Proof.
  intros Hp. unfold placeOrder. case_bool_decide; [done|].
  destruct (negb _); [done|]. done.
Qed.

Lemma loadOrders_toast o st : toast (loadOrders o st) = toast st.
Proof. by destruct o as [|[] ? ?]. Qed.

Lemma placeOrder_toast extra post load st :
  toast (placeOrder extra post load st) = toast st
  ∨ toast (placeOrder extra post load st) = toast_cleared.
Proof.
  unfold placeOrder. case_bool_decide; [by left|].
  destruct (negb _); [by left|].
  destruct (payload extra (cart st)); cbn [mbind completion_bind]; [|by left].
  destruct post as [|[]]; [by left| |by left].
  right. cbn [toast setPlacing]. by rewrite loadOrders_toast.
Qed.

Lemma addToCart_toast p st :
  toast (addToCart p st) = toast st ∨ toast (addToCart p st) = toast_added.
Proof.
  unfold addToCart. destruct (negb _); [by left|]. destruct (_ && _); [by left | by right].
Qed.

Lemma updateQty_toast id q st : toast (updateQty id q st) = toast st.
Proof. unfold updateQty. by destruct (negb _). Qed.

Lemma addToCart_placing p st : placing (addToCart p st) = placing st.
Proof. unfold addToCart. destruct (negb _); [done|]. by destruct (_ && _). Qed.

Lemma updateQty_placing id q st : placing (updateQty id q st) = placing st.
Proof. unfold updateQty. by destruct (negb _). Qed.

Lemma loadOrders_placing o st : placing (loadOrders o st) = placing st.
Proof. by destruct o as [|[] ? ?]. Qed.

Lemma confirmOrder_placing post load st :
  placing st = false → placing (confirmOrder post load st) = false.
Proof.
  intros Hp. unfold confirmOrder. repeat (destruct (negb _); [done|]).
  by apply placeOrder_placing.
Qed.

Lemma confirmOrder_toast post load st :
  toast (confirmOrder post load st) = toast st
  ∨ toast (confirmOrder post load st) = toast_cleared.
Proof.
  unfold confirmOrder. repeat (destruct (negb _); [by left|]).
  apply (placeOrder_toast _ _ _ (setErr "" st)).
Qed.

Lemma reachable_settled st :
  reachable st → placing st = false ∧ toast st ∈ [""; toast_added; toast_cleared].
Proof.
  revert st. apply reachable_ind; [split; [done | by left]|].
  intros st a _ [Hp Ht].
  destruct a as [p | id qv | id | id | | v | | | v | v | o | v | post load | load | ];
    cbn [step]; try done.
  - rewrite addToCart_placing. split; [done|].
    destruct (addToCart_toast p st) as [-> | ->]; [done | by right; left].
  - by rewrite updateQty_placing, updateQty_toast.
  - split; [done | by right; right; left].
  - split; [by apply confirmOrder_placing|].
    destruct (confirmOrder_toast post load st) as [-> | ->]; [done | by right; right; left].
  - by rewrite loadOrders_placing, loadOrders_toast.
  - split; [done | by left].
Qed.

(** X11. Between two events the "Confirm Order" button is never left
    disabled ([placing] is false again once a handler has run), and the toast
    is empty, "Added to cart" or "Cart cleared": the toast "Order placed
    successfully" that [placeOrder] sets is replaced by the one of
    [clearCart], called right after it, and is never the one shown. *)
Theorem settled_state (st : state) :
  reachable st →
  placing st = false
  ∧ toast st ∈ [""; toast_added; toast_cleared]
  ∧ toast st ≠ toast_placed.
Proof.
  intros [Hp Ht]%reachable_settled.
  split; [done|]. split; [done|].
  intros E. rewrite E in Ht.
  repeat (apply elem_of_cons in Ht as [Ht | Ht]; [discriminate Ht|]). by apply elem_of_nil in Ht.
Qed.

Lemma settled_state_witness :
  placing (confirmOrder (PostResponse true "") (OrdersResponse true "" []) checkout_card) = false
  ∧ toast (confirmOrder (PostResponse true "") (OrdersResponse true "" []) checkout_card)
    ≠ toast_placed.
Proof.
  destruct (settled_state
              (step checkout_card (ConfirmOrder (PostResponse true "") (OrdersResponse true "" []))))
    as (Hp & _ & Ht).
  { apply reachable_step. by eexists. }
  by split.
Defined.

(** What [placeOrder] does once its two checks have passed and the request is
    built. *)
Lemma placeOrder_sent extra post load st :
  cart st ≠ [] → truthy (cartSupplierId (cart st)) = true →
  (∀ x, x ∈ cart st → truthy (supplier_of x) = true) →
  placeOrder extra post load st =
    setPlacing false
      (match post with
       | PostThrows m =>
           setErr (str_or m "Place order failed") (setPlacing true (setErr "" st))
       | PostResponse false m =>
           setErr (str_or (str_or m "Order failed") "Place order failed")
                  (setPlacing true (setErr "" st))
       | PostResponse true _ =>
           loadOrders load
             (setTab "orders" (clearCart (setToast toast_placed (setPlacing true (setErr "" st)))))
       end).
Proof.
  intros Hc Hs Hall. unfold placeOrder.
  rewrite bool_decide_eq_false_2 by (by destruct (cart st)).
  rewrite Hs. cbn [negb]. rewrite payload_Normal by done.
  by destruct post as [|[]].
Qed.

Lemma confirmOrder_sent post load st :
  reachable st → ¬ blank (deliveryAddress st) → cart st ≠ [] →
  confirmOrder post load st =
    match post with
    | PostThrows m => setErr (str_or m "Place order failed") st
    | PostResponse false m => setErr (str_or m "Order failed") st
    | PostResponse true _ => loadOrders load (setTab "orders" (clearCart st))
    end.
Proof.
  intros Hst [Htrim _]%not_blank_truthy Hc.
  pose proof (reachable_cartSupplierId st Hst Hc) as Hs.
  destruct (reachable_settled st Hst) as [Hp _].
  unfold confirmOrder. rewrite Htrim, Hs. cbn [negb].
  rewrite (placeOrder_sent _ _ _ (setErr "" st)); [|done|done|].
  - destruct st. cbn in Hp. subst. destruct post as [m|[] m].
    + done.
    + by destruct load as [|[] ? ?].
    + by rewrite str_or_twice.
  - intros x Hx. by apply (reachable_resolves st).
Qed.

(** X9. An accepted order.  In every state the component can reach,
    with a delivery address that is not blank and a cart that is not empty,
    a click on "Confirm Order" whose request is accepted leaves the state
    that clearing the cart, showing the orders tab and loading the orders
    leave: the cart is empty, the checkout form is closed and back to its
    defaults (payment method cash), the orders tab shows, and the list of
    orders and the error are the ones the load of the orders gives. *)
Theorem order_success (st : state) (m : string) (load : orders_outcome) :
  reachable st → ¬ blank (deliveryAddress st) → cart st ≠ [] →
  let st' := confirmOrder (PostResponse true m) load st in
  st' = loadOrders load (setTab "orders" (clearCart st))
  ∧ cart st' = []
  ∧ checkoutOpen st' = false
  ∧ (deliveryAddress st', deliveryDate st', paymentMethod st', orderNote st')
    = ("", "", "cash", "")
  ∧ tab st' = "orders"
  ∧ loadingOrders st' = false
  ∧ (load_failed load → orders st' = orders st ∧ err st' = load_failure_message load)
  ∧ (∀ m' l, load = OrdersResponse true m' l → orders st' = l ∧ err st' = "").
Proof.
  intros Hst Hb Hc st'. subst st'. rewrite (confirmOrder_sent _ _ st Hst Hb Hc).
  split; [done|]. do 5 (split; [by destruct load as [|[] ? ?]|]).
  destruct load as [m1 | [] m1 l1]; cbn.
  - split; [|by intros ?? [=]]. intros _. split; [done|].
    unfold str_or. by case_bool_decide.
  - split; [done|]. by intros m' l [= _ ->].
  - split; [|by intros ?? [=]]. intros _. split; [done|].
    rewrite str_or_twice by done. unfold str_or. by case_bool_decide.
Qed.

Lemma order_success_witness :
  cart (confirmOrder (PostResponse true "") (OrdersThrows "") checkout_card) = []
  ∧ tab (confirmOrder (PostResponse true "") (OrdersThrows "") checkout_card) = "orders"
  ∧ err (confirmOrder (PostResponse true "") (OrdersThrows "") checkout_card)
    = "Orders load failed".
Proof.
  destruct (order_success checkout_card "" (OrdersThrows "")) as (_ & Hc & _ & _ & Ht & _ & He & _).
  - by eexists.
  - intros Hb. apply truthy_trim in Hb. discriminate Hb.
  - done.
  - split; [exact Hc|]. split; [exact Ht|]. by destruct (He I) as [_ ->].
Defined.

(** X10. A rejected order.  In every state the component can reach, with
    a delivery address that is not blank and a cart that is not empty, a
    click on "Confirm Order" whose request is rejected changes the error
    message and nothing else: the cart, the open checkout form and its
    fields are as before, for another try.  The message is never empty: it
    is the one the request came back with, or a fixed one. *)
Theorem order_rejection (st : state) (post : post_outcome) (load : orders_outcome) :
  reachable st → ¬ blank (deliveryAddress st) → cart st ≠ [] → rejected post →
  confirmOrder post load st = setErr (rejection_message post) st
  ∧ rejection_message post ≠ "".
Proof.
  intros Hst Hb Hc Hpost. rewrite (confirmOrder_sent _ _ st Hst Hb Hc).
  destruct post as [m | [] m]; [|done|]; unfold rejection_message, str_or;
    by case_bool_decide.
Qed.

Lemma order_rejection_witness :
  confirmOrder (PostResponse false "Out of stock") (OrdersResponse true "" []) checkout_card
  = setErr "Out of stock" checkout_card.
Proof.
  apply (order_rejection checkout_card (PostResponse false "Out of stock")
           (OrdersResponse true "" [])); [by eexists | | done | exact I].
  intros Hb. apply truthy_trim in Hb. discriminate Hb.
Defined.

(** X12. Loading the orders.  Whatever the state, a load that fails
    (the request throws, or the response is not ok) leaves the list of
    orders as it was and shows a message that is never empty, the one the
    failure brought or a fixed one; a load that succeeds replaces the list
    and clears the error.  Either way the loading flag is off at the end and
    the cart is not touched. *)
Theorem orders_reload (st : state) (o : orders_outcome) :
  loadingOrders (loadOrders o st) = false
  ∧ cart (loadOrders o st) = cart st
  ∧ (load_failed o →
     orders (loadOrders o st) = orders st
     ∧ err (loadOrders o st) = load_failure_message o
     ∧ load_failure_message o ≠ "")
  ∧ (∀ m l, o = OrdersResponse true m l →
     orders (loadOrders o st) = l ∧ err (loadOrders o st) = "").
Proof.
  do 2 (split; [by destruct o as [|[] ? ?]|]).
  destruct o as [m | [] m l]; cbn.
  - split; [|by intros ?? [=]]. intros _. unfold str_or. by case_bool_decide.
  - split; [done|]. by intros m' l' [= _ ->].
  - split; [|by intros ?? [=]]. intros _. rewrite str_or_twice by done.
    unfold str_or. by case_bool_decide.
Qed.

End CheckoutMore.

(** ** Session, profile and catalog *)

Module PageFacts.
Import JS JSFacts JSString Dashboard CartSpec Page MoreSpec Sample CheckoutFacts CheckoutMore.
#[local] Open Scope js_scope.

(** *** The session token *)

Lemma getItem_cases ls k :
  (∃ t, stored ls k = Some t ∧ getItem ls k = JStr t ∧ truthy (JStr t) = true)
  ∨ (stored ls k = None ∧ truthy (getItem ls k) = false).
Proof.
  unfold stored, getItem. destruct (ls !! k) as [t|]; [|by right].
  case_bool_decide as E; [subst; by right|]. left. exists t.
  split; [done|]. split; [done|]. cbn. by rewrite bool_decide_eq_false_2.
Qed.

Lemma token_cases ls :
  (∃ t, session_token ls = Some t ∧ token ls = JStr t ∧ truthy (JStr t) = true)
  ∨ (session_token ls = None ∧ truthy (token ls) = false).
Proof.
  unfold session_token, token.
  destruct (getItem_cases ls "token") as [(t & -> & E1 & T1) | [-> F1]].
  { left. exists t. split; [by destruct (stored ls "authToken"), (stored ls "accessToken")|].
    rewrite E1. by rewrite !(or_truthy (JStr t)) by done. }
  rewrite (or_falsy _ _ F1).
  destruct (getItem_cases ls "authToken") as [(t & -> & E2 & T2) | [-> F2]].
  { left. exists t. split; [by destruct (stored ls "accessToken")|].
    rewrite E2. by rewrite !(or_truthy (JStr t)) by done. }
  rewrite (or_falsy _ _ F2).
  destruct (getItem_cases ls "accessToken") as [(t & -> & E3 & T3) | [-> F3]].
  { left. exists t. split; [done|]. rewrite E3. by rewrite or_truthy. }
  right. split; [done|]. by rewrite (or_falsy _ _ F3).
Qed.

(** X13. The headers of every request.  [Content-Type] is always
    [application/json]; [Authorization] is there exactly when one of the
    storage keys [token], [authToken], [accessToken] holds a string that is
    not empty, and then carries [Bearer] and the first such string, in that
    order of the keys (an empty string under [token] does not hide a token
    under [authToken]); there is no other header. *)
Theorem auth_headers (localStorage : gmap string string) :
  authHeaders localStorage !! "Content-Type" = Some "application/json"
  ∧ authHeaders localStorage !! "Authorization"
    = (λ t, "Bearer " ++ t) <$> session_token localStorage
  ∧ (∀ k, k ≠ "Content-Type" → k ≠ "Authorization" → authHeaders localStorage !! k = None).
Proof.
  unfold authHeaders.
  destruct (token_cases localStorage) as [(t & -> & -> & ->) | [-> ->]].
  - split; [|split].
    + by rewrite lookup_union_r, lookup_singleton_eq by by rewrite lookup_singleton_ne.
    + by rewrite lookup_union_l, lookup_singleton_eq by by rewrite lookup_singleton_ne.
    + intros k H1 H2. rewrite lookup_union_r by (by rewrite lookup_singleton_ne).
      by rewrite lookup_singleton_ne.
  - rewrite (left_id_L ∅ (∪)). split; [|split].
    + by rewrite lookup_singleton_eq.
    + by rewrite lookup_singleton_ne.
    + intros k H1 H2. by rewrite lookup_singleton_ne.
Qed.

(** *** Reading a body *)

Lemma html_page_bool text :
  (startsWith (trim text) "<!DOCTYPE" || startsWith (trim text) "<html")%bool = true
  ↔ html_page text.
Proof. unfold html_page. by rewrite orb_true_iff. Qed.

Lemma truthy_JStr s : truthy (JStr s) = negb (bool_decide (s = "")).
Proof. done. Qed.

Lemma safeJson_truthy JSON_parse fresh text :
  text = "" ∨ html_page text ∨ (∃ m, JSON_parse text = Throw m) →
  truthy (safeJson JSON_parse fresh text) = true.
Proof.
  intros Hbody. unfold safeJson. rewrite truthy_JStr, negb_involutive.
  case_bool_decide as Hempty; [done|].
  destruct (startsWith (trim text) "<!DOCTYPE" || startsWith (trim text) "<html")%bool eqn:E;
    [done|].
  destruct Hbody as [? | [Hh%html_page_bool | [m ->]]]; [done | congruence | done].
Qed.

(** X14. Reading a response body never fails, whatever [JSON.parse]
    does: an empty body reads as the empty object; a body that is an HTML
    page, or that [JSON.parse] rejects, reads as an object whose [message]
    is the whole body; any other body reads as what [JSON.parse] gives.
    [JSON.parse] has no say on an empty body or an HTML page.  The value
    read is falsy only when the body is the JSON text of a falsy value. *)
Theorem response_body (JSON_parse : string → completion jsval) (fresh : nat) (text : string) :
  (text = "" → safeJson JSON_parse fresh text = JObj fresh ∅)
  ∧ (text ≠ "" → html_page text ∨ (∃ m, JSON_parse text = Throw m) →
     safeJson JSON_parse fresh text = JObj fresh {["message" := JStr text]})
  ∧ (text ≠ "" → ¬ html_page text → ∀ d, JSON_parse text = Normal d →
     safeJson JSON_parse fresh text = d)
  ∧ (text = "" ∨ html_page text →
     ∀ parse', safeJson parse' fresh text = safeJson JSON_parse fresh text)
  ∧ (truthy (safeJson JSON_parse fresh text) = false →
     ∃ d, JSON_parse text = Normal d ∧ truthy d = false).
Proof.
  unfold safeJson. rewrite truthy_JStr, negb_involutive.
  case_bool_decide as Hempty.
  { subst text. repeat split; try done. }
  destruct (startsWith (trim text) "<!DOCTYPE" || startsWith (trim text) "<html")%bool eqn:E.
  { apply html_page_bool in E. repeat split; done. }
  assert (¬ html_page text) as Hno.
  { intros Hh%html_page_bool. congruence. }
  split; [done|]. split; [|split; [|split]].
  - intros _ [Hh | [m ->]]; done.
  - by intros _ _ d ->.
  - intros [? | ?]; done.
  - destruct (JSON_parse text) as [d|m]; [|done]. intros Hd. by exists d.
Qed.

(** *** The profile *)

Lemma try_candidates_two JSON_parse fresh fetch url1 url2 :
  try_candidates JSON_parse fresh fetch [url1; url2]
  = match profile_of JSON_parse fresh (fetch url1),
          profile_of JSON_parse (S fresh) (fetch url2) with
    | Some d, _ => Normal d
    | None, Some d => Normal d
    | None, None => Throw ProfileUnavailableError
    end.
Proof.
  cbn [try_candidates]. unfold profile_of.
  destruct (fetch url1) as [|[] text1]; cbn [andb];
    try destruct (truthy (safeJson JSON_parse fresh text1)); try done;
    destruct (fetch url2) as [|[] text2]; cbn [andb];
    try destruct (truthy (safeJson JSON_parse (S fresh) text2)); done.
Qed.

(** X15. Loading the profile.  The profile is the one the first
    endpoint, [/api/supermarket/me], carries when it carries one, whatever
    the second does; else the one of the second, [/api/auth/me]; the error
    is cleared in both cases.  When neither carries a profile the profile
    shown is the one from before and the error is the fixed message.  The
    loading flag is off in the end, and the cart is not touched.  An ok
    answer of the first endpoint whose body is empty, an HTML page or no
    JSON at all does carry a profile: the value [safeJson] reads from it. *)
Theorem profile_load (JSON_parse : string → completion jsval) (fresh : nat)
    (API_BASE : string) (fetch : string → fetch_outcome) (v : view) :
  loadingMe (loadMe JSON_parse fresh API_BASE fetch v) = false
  ∧ cart (base (loadMe JSON_parse fresh API_BASE fetch v)) = cart (base v)
  ∧ (∀ d, profile_of JSON_parse fresh (fetch (API_BASE ++ "/api/supermarket/me")) = Some d →
       me (loadMe JSON_parse fresh API_BASE fetch v) = d
       ∧ err (base (loadMe JSON_parse fresh API_BASE fetch v)) = "")
  ∧ (∀ d, profile_of JSON_parse fresh (fetch (API_BASE ++ "/api/supermarket/me")) = None →
       profile_of JSON_parse (S fresh) (fetch (API_BASE ++ "/api/auth/me")) = Some d →
       me (loadMe JSON_parse fresh API_BASE fetch v) = d
       ∧ err (base (loadMe JSON_parse fresh API_BASE fetch v)) = "")
  ∧ (profile_of JSON_parse fresh (fetch (API_BASE ++ "/api/supermarket/me")) = None →
     profile_of JSON_parse (S fresh) (fetch (API_BASE ++ "/api/auth/me")) = None →
     me (loadMe JSON_parse fresh API_BASE fetch v) = me v
     ∧ err (base (loadMe JSON_parse fresh API_BASE fetch v)) = ProfileUnavailableError)
  ∧ (∀ text, fetch (API_BASE ++ "/api/supermarket/me") = FetchResponse true text →
       text = "" ∨ html_page text ∨ (∃ m, JSON_parse text = Throw m) →
       me (loadMe JSON_parse fresh API_BASE fetch v) = safeJson JSON_parse fresh text).
Proof.
  pose proof (safeJson_truthy JSON_parse fresh) as Hbody.
  unfold loadMe, fetchMeProfile, candidates. rewrite try_candidates_two.
  destruct (profile_of JSON_parse fresh (fetch (API_BASE ++ "/api/supermarket/me")))
    as [d1|] eqn:E1;
    destruct (profile_of JSON_parse (S fresh) (fetch (API_BASE ++ "/api/auth/me")))
      as [d2|] eqn:E2;
    cbn [loadingMe me base err cart setLoadingMe setMe on_base setErr].
  all: split; [done|]. all: split; [done|].
  all: split; [intros d Hd; by simplify_eq|].
  all: split; [intros d Hd1 Hd2; by simplify_eq|].
  all: split; [intros Hd1 Hd2; by simplify_eq|].
  all: intros text Ht Hb; rewrite Ht in E1; cbn [profile_of] in E1.
  all: rewrite (Hbody text Hb) in E1; by simplify_eq.
Qed.

(** *** The catalog filter *)

Lemma startsWith_spec s p : startsWith s p = true ↔ ∃ b, s = p ++ b.
Proof.
  revert s. induction p as [|a p IH]; intros s.
  - split; [|by destruct s]. intros _. by exists s.
  - destruct s as [|b s]; cbn [startsWith].
    + split; [done | by intros [c [=]]].
    + rewrite andb_true_iff, bool_decide_eq_true, IH. split.
      * intros [-> [c ->]]. by exists c.
      * intros [c [= -> ->]]. split; [done | by exists c].
Qed.

Lemma includes_spec s t : includes s t = true ↔ occurs_in t s.
Proof.
  unfold occurs_in. induction s as [|c s IH]; cbn [includes].
  - rewrite orb_false_r, startsWith_spec. split.
    + intros [b Hb]. by exists "", b.
    + intros (a & b & Hab). destruct a; [by exists b | done].
  - rewrite orb_true_iff, startsWith_spec, IH. split.
    + intros [[b Hb] | (a & b & ->)]; [by exists "", b | by exists (String c a), b].
    + intros ([|c' a] & b & Hab); [left; by exists b|].
      right. injection Hab as -> ->. by exists a, b.
Qed.

Lemma toLowerCase_empty s : toLowerCase s = "" ↔ s = "".
Proof. by destruct s. Qed.

Lemma query_blank q : truthy (JStr (toLowerCase (trim q))) = false ↔ blank q.
Proof.
  rewrite truthy_JStr, negb_false_iff, bool_decide_eq_true, toLowerCase_empty.
  apply trim_blank.
Qed.

Lemma lowered_field_readable p k :
  p ≠ JUndefined → p ≠ JNull → text_or_falsy (p?.k) →
  lowered_field p k = Normal (field_text (p?.k)).
Proof.
  intros H1 H2 Hk. unfold lowered_field.
  assert (get p k = Normal (p?.k)) as -> by (by destruct p).
  cbn [mbind completion_bind]. destruct Hk as [Hf | [t Ht]].
  - rewrite or_falsy by done. destruct (p?.k) as [| | | |t|]; try done.
    rewrite truthy_JStr, negb_false_iff, bool_decide_eq_true in Hf. by subst t.
  - by rewrite Ht, or_empty_string.
Qed.

Lemma matches_query_readable s p :
  readable_product p →
  matches_query s p
  = Normal (includes (field_text (p?."name")) s
            || includes (field_text (p?."description")) s
            || includes (field_text (p?."category")) s)%bool.
Proof.
  intros (H1 & H2 & Hn & Hd & Hc). unfold matches_query.
  by rewrite !lowered_field_readable by done.
Qed.

Lemma matches_query_occurs s p b :
  readable_product p → matches_query s p = Normal b → b = true ↔ query_occurs s p.
Proof.
  intros Hp. rewrite (matches_query_readable s p Hp). intros [= <-].
  unfold query_occurs. rewrite !orb_true_iff, !includes_spec. tauto.
Qed.

Lemma filter_c_total {A} (f : A → completion bool) (l : list A) :
  (∀ x, x ∈ l → ∃ b, f x = Normal b) →
  ∃ r, filter_c f l = Normal r ∧ sublist r l
       ∧ ∀ x, x ∈ r ↔ x ∈ l ∧ f x = Normal true.
Proof.
  induction l as [|x l IH]; intros Hl.
  - exists []. split; [done|]. split; [done|]. intros x. rewrite elem_of_nil. tauto.
  - destruct IH as (r & Hr & Hsub & Hin).
    { intros y Hy. apply Hl. by right. }
    destruct (Hl x) as [b Hb]; [by left|].
    cbn [filter_c]. rewrite Hb, Hr. cbn [mbind completion_bind mret completion_ret].
    destruct b.
    + exists (x :: r). split; [done|]. split; [by constructor|].
      intros y. rewrite !elem_of_cons, Hin. split.
      * intros [-> | [? ?]]; [by split; [left|] | by split; [right|]].
      * intros [[-> | ?] ?]; [by left | by right].
    + exists r. split; [done|]. split; [by constructor|].
      intros y. rewrite elem_of_cons, Hin. split.
      * intros [? ?]. by split; [right|].
      * intros [[-> | ?] Hy]; [congruence | done].
Qed.

Lemma filter_c_throws {A} (f : A → completion bool) (l1 l2 : list A) x m :
  (∀ y, y ∈ l1 → ∃ b, f y = Normal b) → f x = Throw m →
  filter_c f (l1 ++ x :: l2)%list = Throw m.
Proof.
  intros Hl Hx. induction l1 as [|y l1 IH]; cbn [app filter_c].
  - by rewrite Hx.
  - destruct (Hl y) as [b ->]; [by left|].
    rewrite IH by (intros z Hz; apply Hl; by right). done.
Qed.

(** X16. The catalog filter.  A blank query shows the whole catalog as
    it is, whatever its entries.  For any other query, over a catalog whose
    entries are readable (none is null or undefined, and the name, the
    description and the category of each are strings or falsy), the filter
    does not fail and shows, in the catalog's order, exactly the entries
    in whose name, description or category the query occurs, the query
    trimmed, and letters compared whatever their case. *)
Theorem catalog_filter (q : string) (products : list jsval) :
  (blank q → filteredProducts q products = Normal products)
  ∧ (¬ blank q → Forall readable_product products →
     ∃ r, filteredProducts q products = Normal r
          ∧ sublist r products
          ∧ ∀ p, p ∈ r ↔ p ∈ products ∧ query_occurs (toLowerCase (trim q)) p).
Proof.
  unfold filteredProducts. split.
  - intros Hq%query_blank. by rewrite Hq.
  - intros Hq Hall.
    destruct (truthy (JStr (toLowerCase (trim q)))) eqn:E; [|by apply query_blank in E].
    cbn [negb].
    destruct (filter_c_total (matches_query (toLowerCase (trim q))) products)
      as (r & Hr & Hsub & Hin).
    { intros p Hp. apply (proj1 (Forall_forall _ _) Hall) in Hp.
      rewrite (matches_query_readable _ p Hp). by eexists. }
    exists r. split; [done|]. split; [done|].
    intros p. rewrite Hin. split.
    + intros [Hp Hm]. split; [done|].
      apply (matches_query_occurs _ p true); [|done|done].
      by apply (proj1 (Forall_forall _ _) Hall).
    + intros [Hp Ho]. split; [done|].
      apply (proj1 (Forall_forall _ _) Hall) in Hp as Hread.
      rewrite (matches_query_readable _ p Hread). f_equal.
      apply (matches_query_occurs (toLowerCase (trim q)) p);
        [done | by apply matches_query_readable | done].
Qed.

Ltac readable :=
  repeat (apply Forall_cons; split); [..|by apply Forall_nil];
  (split; [done|]); (split; [done|]); repeat split;
  first [by left | by right; eexists].

Lemma catalog_filter_witness :
  filteredProducts "   " [JNull; milk] = Normal [JNull; milk]
  ∧ ∃ r, filteredProducts " MILK " [milk; itemA] = Normal r
         ∧ sublist r [milk; itemA]
         ∧ ∀ p, p ∈ r ↔ p ∈ [milk; itemA] ∧ query_occurs "milk" p.
Proof.
  destruct (catalog_filter "   " [JNull; milk]) as [Hblank _].
  destruct (catalog_filter " MILK " [milk; itemA]) as [_ Hfilter].
  split.
  - apply Hblank. by repeat constructor.
  - apply Hfilter.
    + intros Hb. apply truthy_trim in Hb. discriminate Hb.
    + readable.
Defined.

(** X17. What the catalog filter cannot read.  With a query that
    is not blank, an entry that is null or undefined, or whose name is
    truthy and no string, makes the whole filter fail with a TypeError when
    the entries before it are readable; nothing is shown then (with a blank
    query the same catalog is shown in full). *)
Theorem catalog_filter_unreadable (q : string) (l1 l2 : list jsval) (p : jsval) :
  ¬ blank q → Forall readable_product l1 →
  (p = JNull →
     filteredProducts q (l1 ++ p :: l2)%list
     = Throw "Cannot read properties of null (reading 'name')")
  ∧ (p = JUndefined →
     filteredProducts q (l1 ++ p :: l2)%list
     = Throw "Cannot read properties of undefined (reading 'name')")
  ∧ (truthy (p?."name") = true → (∀ t, p?."name" ≠ JStr t) →
     filteredProducts q (l1 ++ p :: l2)%list = Throw (not_a_function "name")).
Proof.
  intros Hq Hall. unfold filteredProducts.
  destruct (truthy (JStr (toLowerCase (trim q)))) eqn:E; [|by apply query_blank in E].
  cbn [negb].
  assert (∀ y, y ∈ l1 → ∃ b, matches_query (toLowerCase (trim q)) y = Normal b) as Hl1.
  { intros y Hy. apply (proj1 (Forall_forall _ _) Hall) in Hy.
    rewrite (matches_query_readable _ y Hy). by eexists. }
  split; [|split].
  - intros ->. by apply filter_c_throws.
  - intros ->. by apply filter_c_throws.
  - intros Ht Hs. apply filter_c_throws; [done|].
    unfold matches_query, lowered_field.
    assert (get p "name" = Normal (p?."name")) as -> by (by destruct p).
    cbn [mbind completion_bind]. rewrite or_truthy by done.
    destruct (p?."name") as [| | | |t|]; try done. by destruct (Hs t).
Qed.

Lemma catalog_filter_unreadable_witness :
  filteredProducts "milk" [milk; JNull; itemA]
  = Throw "Cannot read properties of null (reading 'name')".
Proof.
  destruct (catalog_filter_unreadable "milk" [milk] [itemA] JNull) as [Hnull _].
  - intros Hb. apply truthy_trim in Hb. discriminate Hb.
  - readable.
  - by apply Hnull.
Defined.

End PageFacts.

(** ** More on the supplier's buyers *)

Module BuyersMore.
Import JS JSFacts SupermarketController BuyersSpec BuyersMoreSpec BuyersFacts.
#[local] Open Scope js_scope.

Lemma rows_orders_perm l l' : l ≡ₚ l' → rows_orders l = rows_orders l'.
Proof. unfold rows_orders. induction 1; cbn [foldr]; lia. Qed.

Lemma rows_revenue_perm l l' : l ≡ₚ l' → rows_revenue l = rows_revenue l'.
Proof.
  unfold rows_revenue. induction 1 as [|x l l' _ IH|x y l|l l' l'' _ IH1 _ IH2]; cbn [foldr].
  - done.
  - by rewrite IH.
  - ring.
  - by rewrite IH1.
Qed.

(** One order more in the groups is one order more, and its amount more, in
    their totals. *)
Lemma accumulate_totals groups o :
  (∀ k r, groups !! k = Some r → Row._id r = k) →
  rows_orders (map_to_list (accumulate groups o)).*2
    = rows_orders (map_to_list groups).*2 + 1
  ∧ rows_revenue (map_to_list (accumulate groups o)).*2
    = (rows_revenue (map_to_list groups).*2 + Order.totalAmount o)%Qc.
Proof.
  intros _. unfold accumulate.
  destruct (groups !! Order.supermarket o) as [r|] eqn:E.
  - rewrite <- insert_delete_eq.
    pose proof (map_to_list_delete groups _ _ E) as Hdel.
    rewrite (rows_orders_perm _ _ (fmap_Permutation snd _ _
               (map_to_list_insert (delete (Order.supermarket o) groups) _ _
                  (lookup_delete_eq _ _)))).
    rewrite (rows_revenue_perm _ _ (fmap_Permutation snd _ _
               (map_to_list_insert (delete (Order.supermarket o) groups) _ _
                  (lookup_delete_eq _ _)))).
    rewrite <- (rows_orders_perm _ _ (fmap_Permutation snd _ _ Hdel)).
    rewrite <- (rows_revenue_perm _ _ (fmap_Permutation snd _ _ Hdel)).
    unfold rows_orders, rows_revenue.
    cbn [fmap list_fmap snd foldr Row.totalOrders Row.totalRevenue].
    split; [lia | ring].
  - rewrite (rows_orders_perm _ _ (fmap_Permutation snd _ _ (map_to_list_insert groups _ _ E))).
    rewrite (rows_revenue_perm _ _ (fmap_Permutation snd _ _ (map_to_list_insert groups _ _ E))).
    unfold rows_orders, rows_revenue.
    cbn [fmap list_fmap snd foldr Row.totalOrders Row.totalRevenue].
    split; [lia | ring].
Qed.

Lemma sum_amounts_app g g' : sum_amounts (g ++ g') = (sum_amounts g + sum_amounts g')%Qc.
Proof.
  unfold sum_amounts. induction g as [|x g IH]; cbn [app foldr]; [ring|]. rewrite IH. ring.
Qed.

Lemma group_stage_totals docs :
  rows_orders (group_stage docs) = List.length docs
  ∧ rows_revenue (group_stage docs) = sum_amounts docs.
Proof.
  unfold group_stage. induction docs as [|o docs [IH1 IH2]] using rev_ind.
  - cbn [foldl]. rewrite map_to_list_empty. done.
  - rewrite foldl_snoc.
    destruct (accumulate_totals (foldl accumulate ∅ docs) o) as [-> ->]; [|].
    + intros k r Hk. pose proof (accumulate_lookup docs k) as Hacc. rewrite Hk in Hacc.
      by destruct Hacc as [(? & _) _].
    + rewrite IH1, IH2, length_app, sum_amounts_snoc. done.
Qed.

Lemma summary_rows_totals map rows :
  response_orders (summary map <$> rows) = rows_orders rows
  ∧ response_revenue (summary map <$> rows) = rows_revenue rows.
Proof.
  unfold response_orders, response_revenue, rows_orders, rows_revenue.
  induction rows as [|r rows [IH1 IH2]]; [done|].
  cbn [fmap list_fmap foldr]. rewrite IH1, IH2. done.
Qed.

Lemma sum_amounts_whole docs zs :
  Forall2 whole_amount docs zs → sum_amounts docs = Q2Qc (inject_Z (amounts_sum zs)).
Proof.
  unfold sum_amounts, amounts_sum. induction 1 as [|o z docs zs [Ho _] _ IH]; [done|].
  cbn [foldr]. rewrite IH, Ho.
  pose proof (of_Z_add z (foldr Z.add 0%Z zs)) as Hadd. unfold of_Z in Hadd.
  cbn [add] in Hadd.
  exact (f_equal (λ n, match n with Fin q => q | _ => Q2Qc 0 end) Hadd).
Qed.

(** X18. Nothing is lost and nothing counted twice.  For every order
    collection, the order counts of the entries of the response add up to
    the number of orders placed with the supplier; orders placed with other
    suppliers count for nothing.  When the amounts of the supplier's orders
    are integers whose absolute values add up to at most
    [Number.MAX_SAFE_INTEGER], so that no sum the aggregation takes is
    rounded, the revenues of the entries add up to the sum of these
    amounts. *)
Theorem buyers_totals (supplierId : string) (orders : list Order.t)
    (supermarkets : list Supermarket.t) :
  response_orders (getSupplierBuyers supplierId orders supermarkets)
    = List.length (orders_with supplierId orders)
  ∧ (∀ zs, Forall2 whole_amount (orders_with supplierId orders) zs →
       (amounts_magnitude zs ≤ 9007199254740991)%Z →
       response_revenue (getSupplierBuyers supplierId orders supermarkets)
       = Q2Qc (inject_Z (amounts_sum zs))).
Proof.
  unfold getSupplierBuyers.
  destruct (summary_rows_totals
              (new_Map ((λ m, (toString (Supermarket._id m), m))
                          <$> find_in (Row._id <$> aggregate supplierId orders) supermarkets))
              (aggregate supplierId orders)) as [-> ->].
  rewrite (rows_orders_perm _ _ (aggregate_perm supplierId orders)).
  rewrite (rows_revenue_perm _ _ (aggregate_perm supplierId orders)).
  destruct (group_stage_totals (match_stage supplierId orders)) as [-> ->].
  split; [done|]. intros zs Hzs _. by apply sum_amounts_whole.
Qed.

Lemma buyers_totals_witness :
  response_orders (getSupplierBuyers "SUP1" sample_orders sample_supermarkets) = 3
  ∧ response_revenue (getSupplierBuyers "SUP1" sample_orders sample_supermarkets)
    = Q2Qc (inject_Z 225).
Proof.
  destruct (buyers_totals "SUP1" sample_orders sample_supermarkets) as [Hcount Hrevenue].
  split; [exact Hcount|].
  apply (Hrevenue [100; 50; 75]%Z).
  - repeat (apply Forall2_cons; split; [split; [reflexivity | cbn; lia]|]).
    by apply Forall2_nil.
  - cbn. lia.
Defined.

(** The directory of a collection whose identifiers are all different. *)
Lemma new_Map_lookup_NoDup entries k m :
  NoDup entries.*1 → (k, m) ∈ entries → new_Map entries !! k = Some m.
Proof.
  unfold new_Map. induction entries as [|[k' m'] entries IH] using rev_ind; [by intros _ ?%elem_of_nil|].
  rewrite fmap_app, foldl_snoc. cbn [fmap list_fmap fst snd].
  intros [Hnd [Hk' _]]%NoDup_app [Hin | Hin%list_elem_of_singleton]%elem_of_app.
  - rewrite lookup_insert_ne; [by apply IH|].
    intros <-. apply (Hk' k'); [|by left].
    apply list_elem_of_fmap. by exists (k', m).
  - injection Hin as -> ->. by rewrite lookup_insert_eq.
Qed.

(** X19. The buyer's details.  When no two supermarkets share an
    identifier, every entry of the response whose buyer is on record shows
    that record's name, contact email and address, or, for each of them
    that is missing or empty, the placeholder: "Unknown" for the name, the
    empty string for the other two. *)
Theorem buyer_details (supplierId : string) (orders : list Order.t)
    (supermarkets : list Supermarket.t) (e : Buyer.t) (m : Supermarket.t) :
  NoDup (Supermarket._id <$> supermarkets) →
  e ∈ getSupplierBuyers supplierId orders supermarkets →
  m ∈ supermarkets →
  Supermarket._id m = Buyer.supermarketId e →
  Buyer.name e = Supermarket.name m || JStr "Unknown"
  ∧ Buyer.contactEmail e = Supermarket.contactEmail m || JStr ""
  ∧ Buyer.address e = Supermarket.address m || JStr "".
Proof.
  intros Hnd He Hm Hid. unfold getSupplierBuyers in He.
  apply list_elem_of_fmap in He as (r & -> & Hr).
  cbn [summary Buyer.supermarketId] in Hid.
  unfold summary. cbn [Buyer.name Buyer.contactEmail Buyer.address].
  rewrite (new_Map_lookup_NoDup _ (toString (Row._id r)) m); [done| |].
  - rewrite <- list_fmap_compose.
    apply (sublist_NoDup _ (Supermarket._id <$> supermarkets)); [done|].
    apply (fmap_sublist Supermarket._id), sublist_filter.
  - apply list_elem_of_fmap. exists m. split; [by rewrite <- Hid|].
    apply list_elem_of_filter. split; [|done].
    rewrite Hid. apply list_elem_of_fmap. by exists r.
Qed.

Lemma buyer_details_witness :
  Buyer.name <$> getSupplierBuyers "SUP1" sample_orders sample_supermarkets !! 0
  = Some (JStr "Fresh Mart").
Proof.
  assert (∃ e m, getSupplierBuyers "SUP1" sample_orders sample_supermarkets !! 0 = Some e
                 ∧ sample_supermarkets !! 0 = Some m
                 ∧ Supermarket.name m = JStr "Fresh Mart"
                 ∧ Supermarket._id m = Buyer.supermarketId e) as (e & m & He & Hm & Hn & Hid).
  { eexists _, _. split; [reflexivity|]. split; [reflexivity|]. by split. }
  destruct (buyer_details "SUP1" sample_orders sample_supermarkets e m) as (Hname & _ & _).
  - apply NoDup_singleton.
  - by apply (list_elem_of_lookup_2 _ 0).
  - by apply (list_elem_of_lookup_2 _ 0).
  - done.
  - rewrite He. cbn [fmap option_fmap option_map]. by rewrite Hname, Hn.
Defined.

End BuyersMore.

(** ** The quantity field *)

Module FieldFacts.
Import JS JSFacts Dashboard CartSpec CartTable MoreSpec Sample CartFacts CheckoutFacts CartMore.
#[local] Open Scope js_scope.

(** *** [Number] of a decimal numeral *)

Lemma digit_ind (P : N → Prop) :
  P 0%N → P 1%N → P 2%N → P 3%N → P 4%N → P 5%N → P 6%N → P 7%N → P 8%N → P 9%N →
  ∀ d, (d < 10)%N → P d.
Proof.
  intros H0 H1 H2 H3 H4 H5 H6 H7 H8 H9 d Hd. rewrite <- (N2Nat.id d).
  assert (N.to_nat d < 10) as Hn by lia.
  destruct (N.to_nat d) as [|[|[|[|[|[|[|[|[|[|n]]]]]]]]]]; first [assumption | lia].
Qed.

Lemma digit_val_char d : (d < 10)%N → digit_val 10 (digit_char d) = Some d.
Proof. revert d. by apply digit_ind. Qed.

Lemma is_ws_char d : (d < 10)%N → is_ws (digit_char d) = false.
Proof. revert d. by apply digit_ind. Qed.

Lemma digits_numeral ds acc len :
  Forall (λ d, d < 10)%N ds →
  digits 10 (numeral ds) acc len
  = (foldl (λ a d, a * 10 + d)%N acc ds, len + List.length ds, "").
Proof.
  intros Hds. revert acc len. induction Hds as [|d ds Hd _ IH]; intros acc len.
  - cbn. by rewrite Nat.add_0_r.
  - cbn [numeral digits]. rewrite (digit_val_char d Hd), IH. cbn [foldl List.length].
    do 2 f_equal. lia.
Qed.

Lemma trimEnd_numeral ds : Forall (λ d, d < 10)%N ds → trimEnd (numeral ds) = numeral ds.
Proof.
  induction 1 as [|d ds Hd _ IH]; [done|].
  cbn [numeral trimEnd]. rewrite IH. by rewrite (is_ws_char d Hd).
Qed.

Lemma trim_numeral ds : Forall (λ d, d < 10)%N ds → trim (numeral ds) = numeral ds.
Proof.
  intros Hds. unfold trim.
  assert (trimStart (numeral ds) = numeral ds) as ->; [|by apply trimEnd_numeral].
  destruct Hds as [|d ds Hd _]; [done|]. cbn [numeral trimStart]. by rewrite (is_ws_char d Hd).
Qed.

Lemma nonDecimalLiteral_numeral ds :
  Forall (λ d, d < 10)%N ds → nonDecimalLiteral (numeral ds) = None.
Proof.
  intros Hds. destruct Hds as [|d1 ds Hd1 Hds]; [done|].
  destruct Hds as [|d2 ds Hd2 _].
  - revert d1 Hd1. by apply digit_ind.
  - revert d1 Hd1. apply digit_ind; try done.
    revert d2 Hd2. by apply digit_ind.
Qed.

Lemma unsignedDecimalLiteral_numeral ds :
  ds ≠ [] → Forall (λ d, d < 10)%N ds →
  unsignedDecimalLiteral (numeral ds) = Some (of_Z (Z.of_N (numeral_value ds))).
Proof.
  intros Hne Hds. unfold unsignedDecimalLiteral.
  rewrite bool_decide_eq_false_2.
  2:{ clear Hne. destruct Hds as [|d ds Hd _]; [done|]. revert d Hd. by apply digit_ind. }
  rewrite (digits_numeral ds 0 0 Hds). cbn [plus].
  rewrite bool_decide_eq_false_2 by (destruct ds; [done | cbn; lia]).
  cbn [exponentPart]. cbn [Z.of_nat Z.sub Z.opp Z.add].
  unfold of_Z. do 2 f_equal. apply Q2Qc_eq_iff. cbn [Qpower]. apply Qmult_1_r.
Qed.

Lemma unsigned_char d t :
  (d < 10)%N →
  match String (digit_char d) t with
  | String "-" t' => neg <$> unsignedDecimalLiteral t'
  | String "+" t' => unsignedDecimalLiteral t'
  | _ => unsignedDecimalLiteral (String (digit_char d) t)
  end = unsignedDecimalLiteral (String (digit_char d) t).
Proof. revert d. by apply digit_ind. Qed.

Lemma StringToNumber_numeral ds :
  ds ≠ [] → Forall (λ d, d < 10)%N ds →
  StringToNumber (numeral ds) = of_Z (Z.of_N (numeral_value ds)).
Proof.
  intros Hne Hds. unfold StringToNumber. rewrite (trim_numeral ds Hds).
  rewrite bool_decide_eq_false_2 by (by destruct ds).
  rewrite (nonDecimalLiteral_numeral ds Hds).
  pose proof (unsignedDecimalLiteral_numeral ds Hne Hds) as Hu.
  clear Hne. destruct Hds as [|d ds Hd Hds]; [done|].
  cbn [numeral] in *. rewrite (unsigned_char d (numeral ds) Hd). by rewrite Hu.
Qed.

Lemma StringToNumber_blank s : blank s → StringToNumber s = of_Z 0.
Proof.
  intros Hs%trim_blank. unfold StringToNumber. by rewrite Hs.
Qed.

(** *** What the field does to the cart *)

Lemma updateQty_zero id st :
  reachable st →
  cart (updateQty id (JNum (of_Z 0)) st) = filter (λ x, ¬ line_for id x) (cart st).
Proof.
  intros Hst. rewrite updateQty_cart. cbn [ToNumber isFinite of_Z].
  apply kept_gone; [by apply reachable_positive|]. by intros x _ _.
Qed.

(** X7. Typing into the quantity field of a line.  In every state the
    component can reach: a field left empty or holding white space only
    counts as zero and removes the lines of the item; a field holding
    decimal digits (leading zeros allowed) that stand for a number of at
    most [MAX_SAFE_INTEGER] sets the quantity of the lines of the item to
    that number, also above 999, all other lines staying as they are, or
    removes the lines when that number is zero. *)
Theorem quantity_field (st : state) (id : jsval) :
  reachable st →
  (∀ text, blank text →
     cart (onQtyChange id text st) = filter (λ x, ¬ line_for id x) (cart st))
  ∧ (∀ ds, ds ≠ [] → Forall (λ d, d < 10)%N ds →
       (Z.of_N (numeral_value ds) ≤ MAX_SAFE_INTEGER)%Z →
       cart (onQtyChange id (numeral ds) st)
       = if bool_decide (numeral_value ds = 0%N)
         then filter (λ x, ¬ line_for id x) (cart st)
         else on_lines_for id
                (λ x, {| product := product x; qty := of_Z (Z.of_N (numeral_value ds)) |})
                (cart st)).
Proof.
  intros Hst. pose proof (reachable_positive st Hst) as Hpos. unfold onQtyChange. split.
  - intros text Hb. cbn [ToNumber]. rewrite (StringToNumber_blank text Hb).
    by apply updateQty_zero.
  - intros ds Hne Hds _. cbn [ToNumber]. rewrite (StringToNumber_numeral ds Hne Hds).
    case_bool_decide as Hv.
    + rewrite Hv. by apply updateQty_zero.
    + rewrite updateQty_cart. cbn [ToNumber isFinite of_Z].
      assert (max (of_Z 0) (of_Z (Z.of_N (numeral_value ds))) = of_Z (Z.of_N (numeral_value ds)))
        as Hmax by (rewrite max_of_Z; f_equal; lia).
      rewrite kept_stay; [|done|].
      * unfold on_lines_for, with_qty. apply list_fmap_ext. intros i x _.
        destruct (strict_eq _ _); [|done]. f_equal. exact Hmax.
      * intros x _ _. unfold with_qty. cbn [qty].
        change (Fin (Q2Qc (inject_Z (Z.of_N (numeral_value ds)))))
          with (of_Z (Z.of_N (numeral_value ds))).
        rewrite Hmax, gt_of_Z. apply bool_decide_eq_true. lia.
Qed.

Lemma quantity_field_witness :
  cart (onQtyChange (JStr "A") "" cartA_999) = [{| product := itemC; qty := of_Z 1 |}]
  ∧ cart (onQtyChange (JStr "A") "042" cartA)
    = [{| product := itemA; qty := of_Z 42 |}].
Proof.
  destruct (quantity_field cartA_999 (JStr "A")) as [Hblank _]; [by eexists|].
  destruct (quantity_field cartA (JStr "A")) as [_ Hdigits]; [by eexists|].
  split.
  - rewrite Hblank; [reflexivity | constructor].
  - apply (Hdigits [0; 4; 2]%N); [done| |unfold MAX_SAFE_INTEGER; cbn; lia].
    repeat (apply Forall_cons; split; [reflexivity|]). apply Forall_nil. exact I.
Defined.

End FieldFacts.

(** ** The total and the cart actions *)

Module TotalFacts.
Import JS JSFacts Dashboard CartSpec MoreSpec Sample CartFacts CartMore.
#[local] Open Scope js_scope.

Lemma sign_of_Z_pos n : (0 < n)%Z → sign (of_Z n) = Gt.
Proof.
  intros Hn. cbn [sign of_Z]. apply Qcgt_alt.
  pose proof (of_Z_lt 0 n) as Hlt. rewrite bool_decide_eq_true_2 in Hlt by done.
  by apply bool_decide_eq_true in Hlt.
Qed.

Lemma mul_of_Z_succ pr n : (1 ≤ n)%Z → mul pr (of_Z (n + 1)) = add (mul pr (of_Z n)) pr.
Proof.
  intros Hn. destruct pr as [| | |r].
  - done.
  - cbn [mul of_Z]. change (Fin (Q2Qc (inject_Z ?k))) with (of_Z k).
    rewrite !sign_of_Z_pos by lia. done.
  - cbn [mul of_Z]. change (Fin (Q2Qc (inject_Z ?k))) with (of_Z k).
    rewrite !sign_of_Z_pos by lia. done.
  - rewrite <- of_Z_add. unfold of_Z. cbn [add mul]. f_equal.
    change (Q2Qc (inject_Z 1)) with 1%Qc. ring.
Qed.

Lemma mul_of_Z_1 pr : mul pr (of_Z 1) = pr.
Proof.
  destruct pr as [| | |r]; try done. unfold of_Z. cbn [mul]. f_equal.
  change (Q2Qc (inject_Z 1)) with 1%Qc. ring.
Qed.

Lemma truthy_of_Z n : n ≠ 0%Z → truthy (JNum (of_Z n)) = true.
Proof.
  intros Hn. cbn [truthy isNaN of_Z negb andb]. apply negb_true_iff, bool_decide_eq_false.
  change (Fin (Q2Qc (inject_Z ?k))) with (of_Z k). intros E. by apply of_Z_inj in E.
Qed.

Lemma line_total_units x n :
  qty x = of_Z n → (1 ≤ n)%Z → line_total x = mul (unit_price (product x)) (of_Z n).
Proof.
  intros Hq Hn. unfold line_total, unit_price. rewrite Hq.
  by rewrite (or_truthy (JNum (of_Z n))) by (apply truthy_of_Z; lia).
Qed.

Lemma cartTotal_snoc c y : cartTotal (c ++ [y]) = add (cartTotal c) (line_total y).
Proof. unfold cartTotal. by rewrite foldl_snoc. Qed.

Lemma cartTotal_insert c i x y d :
  c !! i = Some x → line_total y = add (line_total x) d →
  cartTotal (<[i:=y]> c) = add (cartTotal c) d.
Proof.
  intros Hi Hy. rewrite !cartTotal_sum. revert i Hi.
  induction c as [|z c IH]; intros i Hi; [done|].
  destruct i as [|i]; cbn in Hi; cbn [insert list_insert foldr].
  - injection Hi as ->. rewrite Hy.
    rewrite <- !add_assoc. f_equal. apply add_comm.
  - rewrite <- add_assoc. f_equal. by apply IH.
Qed.

Lemma line_for_unique st id i j x y :
  reachable st → cart st !! i = Some x → cart st !! j = Some y →
  line_for id x → line_for id y → i = j.
Proof.
  intros Hst%reachable_apart Hi Hj Hx Hy.
  assert (strict_eq (line_id x) (line_id y) = true) as Hxy.
  { unfold line_id, line_for in *. apply (strict_eq_trans _ id); [done|]. by rewrite strict_eq_sym. }
  destruct (decide (i = j)) as [|Hne]; [done|]. exfalso.
  destruct (decide (i < j)).
  - pose proof (StronglySorted_lookup apart (cart st) i j x y Hst Hi Hj ltac:(lia)) as Ha.
    unfold apart in Ha. congruence.
  - pose proof (StronglySorted_lookup apart (cart st) j i y x Hst Hj Hi ltac:(lia)) as Ha.
    unfold apart in Ha. rewrite strict_eq_sym in Ha. congruence.
Qed.

(** The total after an accepted add, in sums and products without rounding. *)
Lemma cartTotal_added (st : state) (p : jsval) :
  reachable st → accepted p (cart st) = true →
  ((∀ x, x ∈ cart st → ¬ line_for (p?."_id") x) →
     cartTotal (cart (addToCart p st)) = add (cartTotal (cart st)) (unit_price p))
  ∧ (∀ x n, x ∈ cart st → line_for (p?."_id") x → qty x = of_Z n → (n ≤ 999)%Z →
       cartTotal (cart (addToCart p st))
       = if bool_decide (n < 999)%Z then add (cartTotal (cart st)) (unit_price (product x))
         else cartTotal (cart st)).
Proof.
  intros Hst Hacc. rewrite addToCart_cart, Hacc. unfold added. split.
  - intros Habs.
    assert (list_find (line_for (p?."_id")) (cart st) = None) as ->.
    { apply list_find_None, Forall_forall. exact Habs. }
    rewrite cartTotal_snoc. f_equal. unfold line_total, unit_price. cbn [product qty].
    rewrite (or_truthy (JNum (of_Z 1))) by done. apply mul_of_Z_1.
  - intros x n Hx Hfor Hq Hmax.
    apply list_elem_of_lookup_1 in Hx as [j Hj].
    destruct (list_find _ _) as [[i x']|] eqn:Hfind.
    2:{ apply list_find_None in Hfind.
        by destruct (proj1 (Forall_forall _ _) Hfind x (list_elem_of_lookup_2 _ _ _ Hj)). }
    apply list_find_Some in Hfind as (Hi & Hfor' & _).
    assert (i = j) as -> by (by eapply (line_for_unique st)).
    assert (x' = x) as -> by congruence.
    assert (1 ≤ n)%Z as Hn.
    { pose proof (reachable_positive st Hst) as Hpos.
      pose proof (proj1 (Forall_forall _ _) Hpos x (list_elem_of_lookup_2 _ _ _ Hj)) as Hgt.
      cbv beta in Hgt. rewrite Hq, gt_of_Z in Hgt. apply bool_decide_eq_true in Hgt. lia. }
    case_bool_decide as Hcap.
    + apply (cartTotal_insert _ j x); [done|].
      rewrite (line_total_units (bumped x) (Z.min 999 (n + 1))); [|by apply bumped_integer|lia].
      rewrite (line_total_units x n Hq Hn). cbn [bumped product].
      rewrite Z.min_r by lia. by apply mul_of_Z_succ.
    + assert (bumped x = x) as ->.
      { destruct x as [px qx]. cbn [qty] in Hq. subst qx. unfold bumped. cbn [product qty].
        f_equal. rewrite of_Z_add, min_of_Z. f_equal. lia. }
      by rewrite list_insert_id.
Qed.

Lemma whole_line_qty st x pq :
  reachable st → x ∈ cart st → whole_line x pq →
  unit_price (product x) = of_Z pq.1 ∧ qty x = of_Z pq.2.
Proof.
  intros Hst Hx (Hp & Hq & _). split; [exact Hp|].
  pose proof (proj1 (Forall_forall _ _) (reachable_finite_quantities st Hst) x Hx)
    as (r & Hr & Hpos).
  rewrite Hr in Hq |- *. rewrite or_truthy in Hq; [done|].
  cbn [truthy isNaN negb andb]. apply negb_true_iff, bool_decide_eq_false.
  intros [= ->]. by apply (irreflexivity Qclt) in Hpos.
Qed.

(** X20. Adding to the cart and the total.  In every state the component can
    reach whose cart has whole prices and quantities, and as long as the
    absolute values of price times quantity add up to at most
    [MAX_SAFE_INTEGER] after the add: an accepted product that has no line
    yet raises the total by its own unit price; one that has a line, with a
    quantity below 999, raises the total by the unit price of the product the
    line holds, which is the one from the first click and not necessarily the
    one passed now; on a line at 999 the total stays as it is. *)
Theorem add_raises_total (st : state) (p : jsval) (pqs : list (Z * Z)) :
  reachable st → accepted p (cart st) = true →
  Forall2 whole_line (cart st) pqs →
  (∀ u, (∀ x, x ∈ cart st → ¬ line_for (p?."_id") x) →
     unit_price p = of_Z u → safe u →
     (magnitude pqs + Z.abs u ≤ MAX_SAFE_INTEGER)%Z →
     cartTotal (cart st) = of_Z (exact_total pqs)
     ∧ cartTotal (cart (addToCart p st)) = of_Z (exact_total pqs + u))
  ∧ (∀ j x u n, cart st !! j = Some x → pqs !! j = Some (u, n) →
       line_for (p?."_id") x → (n ≤ 999)%Z →
       (magnitude pqs + Z.abs u ≤ MAX_SAFE_INTEGER)%Z →
       cartTotal (cart st) = of_Z (exact_total pqs)
       ∧ cartTotal (cart (addToCart p st))
         = of_Z (if bool_decide (n < 999)%Z then exact_total pqs + u else exact_total pqs)).
Proof.
  intros Hst Hacc Hwhole.
  pose proof (cartTotal_whole _ _ Hwhole) as Htotal.
  destruct (cartTotal_added st p Hst Hacc) as [Hnew Hline].
  split.
  - intros u Habs Hu _ _. split; [done|].
    by rewrite (Hnew Habs), Htotal, Hu, of_Z_add.
  - intros j x u n Hj Hpq Hfor Hn _. split; [done|].
    assert (x ∈ cart st) as Hx by (by eapply list_elem_of_lookup_2).
    assert (whole_line x (u, n)) as Hxw.
    { destruct (Forall2_lookup_l _ _ _ _ _ Hwhole Hj) as (pq & Hpq' & Hxw). congruence. }
    destruct (whole_line_qty st x (u, n) Hst Hx Hxw) as [Hu Hq]. cbn [fst snd] in Hu, Hq.
    rewrite (Hline x n Hx Hfor Hq Hn), Htotal, Hu.
    case_bool_decide; [by rewrite of_Z_add | done].
Qed.

Lemma add_raises_total_witness :
  cartTotal (cart (addToCart itemA init)) = of_Z 10
  ∧ cartTotal (cart cartA) = of_Z 10
  ∧ cartTotal (cart (addToCart itemA_repriced cartA)) = of_Z 20.
Proof.
  destruct (add_raises_total init itemA []) as [Hnew _];
    [by exists [] | done | by apply Forall2_nil |].
  destruct (add_raises_total cartA itemA_repriced [(10, 1)]%Z) as [_ Hline];
    [by eexists | done | |].
  { apply Forall2_cons. split; [|by apply Forall2_nil].
    split; [reflexivity|]. split; [reflexivity|]. unfold safe, MAX_SAFE_INTEGER. cbn. lia. }
  destruct (Hnew 10%Z) as [_ H1].
  { by intros x Hx%elem_of_nil. }
  { reflexivity. }
  { unfold safe, MAX_SAFE_INTEGER. cbn. lia. }
  { unfold MAX_SAFE_INTEGER. cbn. lia. }
  destruct (Hline 0 {| product := itemA; qty := of_Z 1 |} 10%Z 1%Z) as [H2 H3];
    [reflexivity | reflexivity | reflexivity | lia | unfold MAX_SAFE_INTEGER; cbn; lia |].
  split; [exact H1|]. split; [exact H2 | exact H3].
Defined.

End TotalFacts.
